(** * OPi.GPIO: the channel ledger and the PWM channel controller

    A shallow embedding of [OPi/GPIO.py].  The module keeps three globals
    ([_gpio_warnings], [_mode], [_exports]) and talks to the kernel through
    the [sysfs] and [event] modules and to the pin tables through
    [pin_mappings]; those three modules are collaborators of [GPIO.py] and
    are taken here as an interface ([Board]).  Python code mutates its
    state and may raise at any call, and what was mutated before the raise
    stays mutated: the monad below therefore returns the state on both
    outcomes. *)

From Stdlib Require String.
From Stdlib Require Import ZArith QArith List Bool Lia.
From Stdlib Require Import Floats.PrimFloat Floats.FloatOps Floats.SpecFloat.
Import ListNotations.

Set Implicit Arguments.
Local Open Scope Z_scope.

(** ** Constants of [OPi.constants] used by [GPIO.py] *)

Inductive direction := IN | OUT.
Inductive mode := BCM | BOARD | SUNXI | CUSTOM.
Inductive trigger := RISING | FALLING | BOTH.
Inductive pull := PUD_OFF | PUD_UP | PUD_DOWN.

Definition direction_eqb (a b : direction) : bool :=
  match a, b with
  | IN, IN | OUT, OUT => true
  | _, _ => false
  end.

(** ** Channels and pins

    A channel is whatever the numbering scheme indexes: a header position
    under BOARD and BCM, a pin name such as "PA01" under SUNXI, either under
    a custom table.  A physical pin is the number sysfs knows.  [chan_arg]
    is the argument of [setup], [output] and [cleanup], which test
    [isinstance(channel, list)] and recurse into the members. *)

Inductive channel :=
| Number (n : Z)
| Name (s : String.string).

Definition channel_eqb (a b : channel) : bool :=
  match a, b with
  | Number n, Number m => n =? m
  | Name s, Name t => String.eqb s t
  | _, _ => false
  end.

Definition gpio_pin := Z.

#[warnings="-register-all"]
Inductive chan_arg :=
| Chan (c : channel)
| ChanList (l : list chan_arg).

(** A user callback is named by a number; [__wrap] pairs it with the
    channel it will be called with. *)
Definition handler := nat.

(** ** Python numbers

    A frequency or a percentage is a Python number, an [int] or a [float];
    a [float] may be an infinity or a NaN. *)

Inductive pynum :=
| Integer (n : Z)
| Floating (x : float).

(** ** Exceptions *)

Inductive runtime_msg :=
| ModeNotSet
| AlreadyConfigured (c : channel)
| NotConfigured (c : channel)
| ConfiguredFor (c : channel) (d : direction).

(** What [GPIO.py] raises itself ([RuntimeError], the [Exception] of
    [PWM.duty_cycle], [KeyError] from [del]), what its arithmetic raises,
    and what comes up from a collaborator: an [OSError] with its [errno],
    which [setup] and [PWM.__init__] catch, or an exception of some other
    class, which nothing in [GPIO.py] catches. *)
Inductive exn :=
| RuntimeError (m : runtime_msg)
| DutyCycleOutOfBounds (percent : pynum)
| KeyError
| ZeroDivisionError
| OverflowError
| ValueError
| OSError (errno : Z)
| Foreign (class : nat).

(** A failure of a collaborator. *)
Inductive failure :=
| Errno (errno : Z)
| Other (class : nat).

Definition exn_of (f : failure) : exn :=
  match f with
  | Errno n => OSError n
  | Other k => Foreign k
  end.

(** ** Arithmetic of the interpreter *)

Module Num.

(** An [int] as a quotient operand: the sign and the magnitude, not yet
    rounded. *)
Definition sf_of_int (n : Z) : spec_float :=
  match n with
  | Z0 => S754_zero false
  | Zpos p => S754_finite false p 0
  | Zneg p => S754_finite true p 0
  end.

(** A result that has overflowed raises [OverflowError]. *)
Definition finite (r : spec_float) : exn + float :=
  match r with
  | S754_infinity _ => inl OverflowError
  | _ => inr (SF2Prim r)
  end.

(** [a / b] on two [int]s: the quotient, rounded once to binary64 (ties to
    even). *)
Definition int_truediv (a b : Z) : exn + float :=
  if b =? 0 then inl ZeroDivisionError
  else finite (SFdiv prec emax (sf_of_int a) (sf_of_int b)).

(** [float(n)] *)
Definition float_of_int (n : Z) : exn + float :=
  finite (SFdiv prec emax (sf_of_int n) (sf_of_int 1)).

Definition to_float (a : pynum) : exn + float :=
  match a with
  | Integer n => float_of_int n
  | Floating x => inr x
  end.

Definition float_is_zero (x : float) : bool :=
  match Prim2SF x with
  | S754_zero _ => true
  | _ => false
  end.

(** [a / b]: true division.  With a [float] on either side both operands
    are taken as floats, then a zero divisor raises. *)
Definition truediv (a b : pynum) : exn + float :=
  match a, b with
  | Integer x, Integer y => int_truediv x y
  | _, _ =>
      match to_float a with
      | inl e => inl e
      | inr xa =>
          match to_float b with
          | inl e => inl e
          | inr xb =>
              if float_is_zero xb then inl ZeroDivisionError
              else inr (xa / xb)%float
          end
      end
  end.

(** The integer nearest to [m * 2^e], ties to the even one. *)
Definition round_half_even (m e : Z) : Z :=
  if 0 <=? e then m * 2 ^ e
  else
    let d := 2 ^ (- e) in
    let q := m / d in
    match (2 * (m mod d)) ?= d with
    | Lt => q
    | Gt => q + 1
    | Eq => if Z.even q then q else q + 1
    end.

(** [int(round(x, 0))]: [round] leaves an infinity or a NaN as it is and
    [int] then raises. *)
Definition int_round (x : float) : exn + Z :=
  match Prim2SF x with
  | S754_nan => inl ValueError
  | S754_infinity _ => inl OverflowError
  | S754_zero _ => inr 0
  | S754_finite s m e =>
      let n := round_half_even (Zpos m) e in
      inr (if s then - n else n)
  end.

(** [int(round((1 / hz) * 1e9, 0))] *)
Definition period_ns (hz : pynum) : exn + Z :=
  match truediv (Integer 1) hz with
  | inl e => inl e
  | inr r => int_round (r * 1e9)%float
  end.

(** [int(round((percent / 100) * pwm_period, 0))] *)
Definition duty_ns (percent : pynum) (pwm_period : Z) : exn + Z :=
  match truediv percent (Integer 100) with
  | inl e => inl e
  | inr q =>
      match float_of_int pwm_period with
      | inl e => inl e
      | inr p => int_round (q * p)%float
      end
  end.

(** What a number is worth when it is compared: a rational, an infinity,
    or nothing (NaN).  Comparisons of an [int] with a [float] are exact. *)
Inductive ext :=
| NaN
| NegInf
| PosInf
| Fin (q : Q).

Definition sf_value (s : bool) (m : positive) (e : Z) : Q :=
  let n := if s then Zneg m else Zpos m in
  match e with
  | Z0 => n # 1
  | Zpos k => (n * Zpos (2 ^ k)) # 1
  | Zneg k => n # (2 ^ k)
  end.

Definition ext_of (a : pynum) : ext :=
  match a with
  | Integer n => Fin (n # 1)
  | Floating x =>
      match Prim2SF x with
      | S754_nan => NaN
      | S754_infinity s => if s then NegInf else PosInf
      | S754_zero _ => Fin 0
      | S754_finite s m e => Fin (sf_value s m e)
      end
  end.

Definition is_nan (a : pynum) : bool :=
  match ext_of a with
  | NaN => true
  | _ => false
  end.

Definition ext_leb (a b : ext) : bool :=
  match a, b with
  | NaN, _ | _, NaN => false
  | NegInf, _ | _, PosInf => true
  | PosInf, _ | _, NegInf => false
  | Fin p, Fin q => Qle_bool p q
  end.

(** [a <= b], [a < b], [a == b] *)
Definition le (a b : pynum) : bool := ext_leb (ext_of a) (ext_of b).

Definition lt (a b : pynum) : bool :=
  match ext_of a, ext_of b with
  | NaN, _ | _, NaN => false
  | _, _ => negb (ext_leb (ext_of b) (ext_of a))
  end.

Definition eq (a b : pynum) : bool := le a b && le b a.

(** [0 <= percent <= 100] *)
Definition is_percentage (percent : pynum) : bool :=
  le (Integer 0) percent && le percent (Integer 100).

End Num.

Inductive advisory :=
| PullUpDownUnsupported
| ChannelInUse (c : channel)
| BouncetimeUnsupported
| PwmPinInUse (p : Z).

(** ** Calls into [sysfs] and [event] *)

Inductive call :=
| sysfs_export (p : gpio_pin)
| sysfs_unexport (p : gpio_pin)
| sysfs_direction (p : gpio_pin) (d : direction)
| sysfs_output (p : gpio_pin) (state : bool)
| event_add_edge_detect (p : gpio_pin) (t : trigger) (cb : option (handler * channel))
| event_add_edge_callback (p : gpio_pin) (cb : option (handler * channel))
| event_remove_edge_detect (p : gpio_pin)
| event_cleanup (p : gpio_pin)
| PWM_Export (chip p : Z)
| PWM_Unexport (chip p : Z)
| PWM_Polarity (chip p : Z) (invert : bool)
| PWM_Enable (chip p : Z)
| PWM_Disable (chip p : Z)
| PWM_Frequency (chip p : Z) (hz : pynum)
| PWM_Period (chip p : Z) (ns : Z)
| PWM_Duty_Cycle (chip p : Z) (ns : Z)
| PWM_Duty_Cycle_Percent (chip p : Z) (percent : pynum).

(** What the program does that an observer sees, in the order it does it. *)
Inductive event :=
| Call (c : call)
| Warn (a : advisory).

(** ** The collaborators

    [perform c d] runs the call [c] on the control surface in state [d]: it
    returns [None] when the call returns and [Some f] when it fails with
    [f], with the surface's next state.  [get_gpio_pin] is the pin table; it
    is given [_mode] as it stands, [None] included. *)

Class Board := {
  Dev : Type;
  perform : call -> Dev -> option failure * Dev;
  get_gpio_pin : option mode -> channel -> failure + gpio_pin
}.

(** ** State and exceptions *)

Module Py.

Definition M (St A : Type) : Type := St -> (exn + A) * St.

Definition ret {St A} (a : A) : M St A := fun s => (inr a, s).

Definition bind {St A B} (m : M St A) (k : A -> M St B) : M St B :=
  fun s =>
    match m s with
    | (inr a, s') => k a s'
    | (inl e, s') => (inl e, s')
    end.

Definition raise {St A} (e : exn) : M St A := fun s => (inl e, s).

Definition get {St} : M St St := fun s => (inr s, s).

Definition modify {St} (f : St -> St) : M St unit := fun s => (inr tt, f s).

(** [try: m except e: h e].  The handler decides what it catches; what it
    does not catch it raises again. *)
Definition try_except {St A} (m : M St A) (h : exn -> M St A) : M St A :=
  fun s =>
    match m s with
    | (inr a, s') => (inr a, s')
    | (inl e, s') => h e s'
    end.

(** [for x in l: f x] *)
Definition for_each {St A} (f : A -> M St unit) : list A -> M St unit :=
  fix loop (l : list A) : M St unit :=
    match l with
    | [] => ret tt
    | x :: r => bind (f x) (fun _ => loop r)
    end.

(** A value or an exception computed without touching the state. *)
Definition eval {St A} (r : exn + A) : M St A := fun s => (r, s).

Definition when {St} (b : bool) (m : M St unit) : M St unit :=
  if b then m else ret tt.

End Py.

Declare Scope py_scope.
Delimit Scope py_scope with py.
Notation "x <- m ;; k" := (Py.bind m (fun x => k))
  (at level 61, m at next level, right associativity) : py_scope.
Notation "m ;; k" := (Py.bind m (fun _ => k))
  (at level 61, right associativity) : py_scope.
Local Open Scope py_scope.

(** ** The dictionary [_exports]

    A Python [dict] keeps its keys in insertion order, which [cleanup()]
    walks; it is an association list with at most one binding per key. *)

Module Dict.

Definition t := list (channel * direction).

Fixpoint get (k : channel) (d : t) : option direction :=
  match d with
  | [] => None
  | (k', v) :: r => if channel_eqb k k' then Some v else get k r
  end.

Definition mem (k : channel) (d : t) : bool :=
  match get k d with Some _ => true | None => false end.

(** [d[k] = v]: an existing key keeps its place. *)
Fixpoint set (k : channel) (v : direction) (d : t) : t :=
  match d with
  | [] => [(k, v)]
  | (k', v') :: r =>
      if channel_eqb k k' then (k, v) :: r else (k', v') :: set k v r
  end.

(** [del d[k]], once the key is known to be there. *)
Definition remove (k : channel) (d : t) : t :=
  filter (fun kv => negb (channel_eqb k (fst kv))) d.

Definition keys (d : t) : list channel := map fst d.

End Dict.

(** ** The module's state *)

Section GPIO.

Context {board : Board}.

(** [_gpio_warnings], [_mode] and [_exports], the control surface, and
    the record of what has been done so far, oldest first. *)
Record World := mkWorld {
  gpio_warnings : bool;
  gpio_mode : option mode;
  exports : Dict.t;
  device : Dev;
  log : list event
}.

Definition set_warnings_field (b : bool) (w : World) : World :=
  mkWorld b (gpio_mode w) (exports w) (device w) (log w).

Definition set_mode_field (m : option mode) (w : World) : World :=
  mkWorld (gpio_warnings w) m (exports w) (device w) (log w).

Definition set_exports_field (d : Dict.t) (w : World) : World :=
  mkWorld (gpio_warnings w) (gpio_mode w) d (device w) (log w).

Definition gpio := Py.M World.

(** The world once [ev] has happened and left the surface in state [d]. *)
Definition logged (ev : event) (d : Dev) (w : World) : World :=
  mkWorld (gpio_warnings w) (gpio_mode w) (exports w) d (log w ++ [ev]).

(** [warnings.warn(...)] *)
Definition warn (a : advisory) : gpio unit :=
  Py.modify (fun w => logged (Warn a) (device w) w).

(** A call into [sysfs] or [event]: it is recorded, then it returns or
    raises as the surface decides. *)
Definition sys (c : call) : gpio unit :=
  fun w =>
    let (r, d) := perform c (device w) in
    match r with
    | None => (inr tt, logged (Call c) d w)
    | Some f => (inl (exn_of f), logged (Call c) d w)
    end.

(** [pin = get_gpio_pin(_mode, channel)] *)
Definition lookup_pin (c : channel) : gpio gpio_pin :=
  fun w =>
    match get_gpio_pin (gpio_mode w) c with
    | inr p => (inr p, w)
    | inl f => (inl (exn_of f), w)
    end.

(** ** [_check_configured], [setmode], [setwarnings] *)

Definition _check_configured (c : channel) (dir : option direction)
  : gpio unit :=
  w <- Py.get ;;
  match Dict.get c (exports w) with
  | None => Py.raise (RuntimeError (NotConfigured c))
  | Some configured =>
      match dir with
      | Some d =>
          if negb (direction_eqb d configured)
          then Py.raise (RuntimeError (ConfiguredFor c configured))
          else Py.ret tt
      | None => Py.ret tt
      end
  end.

Definition getmode : gpio (option mode) :=
  w <- Py.get ;; Py.ret (gpio_mode w).

(** [setmode] with one of the four constants (a custom table is a matter
    of [pin_mappings]). *)
Definition setmode (m : mode) : gpio unit :=
  Py.modify (set_mode_field (Some m)).

Definition setwarnings (enabled : bool) : gpio unit :=
  Py.modify (set_warnings_field enabled).

(** ** [setup] *)

(** The [try: sysfs.export(pin) except (OSError, IOError) as e:] block of
    [setup]. *)
Definition export_retrying (c : channel) (p : gpio_pin) : gpio unit :=
  Py.try_except (sys (sysfs_export p))
    (fun e =>
       match e with
       | OSError errno =>
           if errno =? 16
           then
             w <- Py.get ;;
             Py.when (gpio_warnings w) (warn (ChannelInUse c)) ;;
             sys (sysfs_unexport p) ;;
             sys (sysfs_export p)
           else Py.raise e
       | _ => Py.raise e
       end).

Definition setup_channel (c : channel) (dir : direction)
    (initial : option bool) : gpio unit :=
  w <- Py.get ;;
  if Dict.mem c (exports w)
  then Py.raise (RuntimeError (AlreadyConfigured c))
  else
    p <- lookup_pin c ;;
    export_retrying c p ;;
    sys (sysfs_direction p dir) ;;
    Py.modify (fun w => set_exports_field (Dict.set c dir (exports w)) w) ;;
    match dir, initial with
    | OUT, Some v => sys (sysfs_output p v)
    | _, _ => Py.ret tt
    end.

(** [if pull_up_down is not None: if _gpio_warnings: warnings.warn(...)] *)
Definition pull_notice (pull_up_down : option pull) : gpio unit :=
  match pull_up_down with
  | Some _ =>
      w <- Py.get ;;
      Py.when (gpio_warnings w) (warn PullUpDownUnsupported)
  | None => Py.ret tt
  end.

Fixpoint setup (ch : chan_arg) (dir : direction) (initial : option bool)
    (pull_up_down : option pull) {struct ch} : gpio unit :=
  w <- Py.get ;;
  match gpio_mode w with
  | None => Py.raise (RuntimeError ModeNotSet)
  | Some _ =>
      pull_notice pull_up_down ;;
      match ch with
      | ChanList l =>
          Py.for_each (fun x => setup x dir initial None) l
      | Chan c => setup_channel c dir initial
      end
  end.

(** ** [output] *)

Definition output_channel (c : channel) (state : bool) : gpio unit :=
  _check_configured c (Some OUT) ;;
  p <- lookup_pin c ;;
  sys (sysfs_output p state).

Fixpoint output (ch : chan_arg) (state : bool) {struct ch} : gpio unit :=
  match ch with
  | ChanList l =>
      Py.for_each (fun x => output x state) l
  | Chan c => output_channel c state
  end.

(** ** Edge detection: registration *)

(** [__wrap(callback, channel)] *)
Definition __wrap (callback : option handler) (c : channel)
  : option (handler * channel) :=
  match callback with
  | Some h => Some (h, c)
  | None => None
  end.

(** [if bouncetime is not None: if _gpio_warnings: warnings.warn(...)] *)
Definition bouncetime_notice (bouncetime : option Z) : gpio unit :=
  match bouncetime with
  | Some _ =>
      w <- Py.get ;;
      Py.when (gpio_warnings w) (warn BouncetimeUnsupported)
  | None => Py.ret tt
  end.

Definition add_event_detect (c : channel) (t : trigger)
    (callback : option handler) (bouncetime : option Z) : gpio unit :=
  _check_configured c (Some IN) ;;
  bouncetime_notice bouncetime ;;
  p <- lookup_pin c ;;
  sys (event_add_edge_detect p t (__wrap callback c)).

Definition remove_event_detect (c : channel) : gpio unit :=
  _check_configured c (Some IN) ;;
  p <- lookup_pin c ;;
  sys (event_remove_edge_detect p).

Definition add_event_callback (c : channel) (callback : option handler)
    (bouncetime : option Z) : gpio unit :=
  _check_configured c (Some IN) ;;
  bouncetime_notice bouncetime ;;
  p <- lookup_pin c ;;
  sys (event_add_edge_callback p (__wrap callback c)).

(** ** [cleanup] *)

Definition cleanup_channel (c : channel) : gpio unit :=
  _check_configured c None ;;
  p <- lookup_pin c ;;
  sys (event_cleanup p) ;;
  sys (sysfs_unexport p) ;;
  w <- Py.get ;;
  match Dict.get c (exports w) with
  | None => Py.raise KeyError
  | Some _ =>
      Py.modify (fun w => set_exports_field (Dict.remove c (exports w)) w)
  end.

(** [cleanup(channel)] with a channel or a list. *)
Fixpoint cleanup_arg (ch : chan_arg) {struct ch} : gpio unit :=
  match ch with
  | ChanList l =>
      Py.for_each (fun x => cleanup_arg x) l
  | Chan c => cleanup_channel c
  end.

(** [cleanup(channel=None)] *)
Definition cleanup (ch : option chan_arg) : gpio unit :=
  match ch with
  | None =>
      w <- Py.get ;;
      cleanup_arg (ChanList (map Chan (Dict.keys (exports w)))) ;;
      setwarnings true ;;
      Py.modify (set_mode_field None)
  | Some a => cleanup_arg a
  end.

End GPIO.

(** ** The class [PWM] *)

Module PWM.

(** The attributes of a [PWM] object. *)
Record self_t := mkSelf {
  chip : Z;
  pin : Z;
  frequency : pynum;
  duty_cycle_percent : pynum;
  invert_polarity : bool
}.

Definition with_frequency (hz : pynum) (o : self_t) : self_t :=
  mkSelf (chip o) (pin o) hz (duty_cycle_percent o) (invert_polarity o).

Definition with_percent (percent : pynum) (o : self_t) : self_t :=
  mkSelf (chip o) (pin o) (frequency o) percent (invert_polarity o).

Section Methods.

Context {board : Board}.

(** A method runs on its object and on the module's state. *)
Definition method := Py.M (self_t * World).

Definition self : method self_t := fun s => (inr (fst s), s).

Definition sysfs (c : call) : method unit :=
  fun s =>
    let (r, w') := sys c (snd s) in (r, (fst s, w')).

(** [self.frequency = hz] *)
Definition set_frequency (hz : pynum) : method unit :=
  Py.modify (fun s => (with_frequency hz (fst s), snd s)).

(** [self.duty_cycle_percent = percent] *)
Definition set_duty_cycle_percent (percent : pynum) : method unit :=
  Py.modify (fun s => (with_percent percent (fst s), snd s)).

(** [PWM(chip, pin, frequency, duty_cycle_percent, invert_polarity)]: the
    attributes are assigned, then the [try] block runs on the module's
    state.  The [sysfs] functions return [None]. *)
Definition __init__ (chip pin : Z) (frequency duty_cycle_percent : pynum)
    (invert_polarity : bool) : gpio self_t :=
  Py.try_except
    (sys (PWM_Export chip pin) ;;
     (if invert_polarity
      then sys (PWM_Polarity chip pin true)
      else sys (PWM_Polarity chip pin false)) ;;
     sys (PWM_Enable chip pin) ;;
     sys (PWM_Frequency chip pin frequency))
    (fun e =>
       match e with
       | OSError errno =>
           if errno =? 16
           then
             warn (PwmPinInUse pin) ;;
             sys (PWM_Unexport chip pin) ;;
             sys (PWM_Export chip pin)
           else Py.raise e
       | _ => Py.raise e
       end) ;;
  Py.ret (mkSelf chip pin frequency duty_cycle_percent invert_polarity).

Definition start_pwm : method unit :=
  o <- self ;;
  sysfs (PWM_Duty_Cycle_Percent (chip o) (pin o) (duty_cycle_percent o)).

Definition stop_pwm : method unit :=
  o <- self ;;
  sysfs (PWM_Duty_Cycle_Percent (chip o) (pin o) (Integer 0)).

Definition change_frequency (new_frequency : pynum) : method unit :=
  o <- self ;;
  pwm_period <- Py.eval (Num.period_ns new_frequency) ;;
  duty_cycle <- Py.eval (Num.duty_ns (duty_cycle_percent o) pwm_period) ;;
  old_pwm_period <- Py.eval (Num.period_ns (frequency o)) ;;
  (if pwm_period >? old_pwm_period
   then
     sysfs (PWM_Period (chip o) (pin o) pwm_period) ;;
     sysfs (PWM_Duty_Cycle (chip o) (pin o) duty_cycle)
   else
     sysfs (PWM_Duty_Cycle (chip o) (pin o) duty_cycle) ;;
     sysfs (PWM_Period (chip o) (pin o) pwm_period)) ;;
  set_frequency new_frequency.

Definition duty_cycle (percent : pynum) : method unit :=
  if Num.is_percentage percent
  then
    set_duty_cycle_percent percent ;;
    o <- self ;;
    sysfs (PWM_Duty_Cycle_Percent (chip o) (pin o) (duty_cycle_percent o))
  else Py.raise (DutyCycleOutOfBounds percent).

Definition pwm_polarity : method unit :=
  o <- self ;;
  sysfs (PWM_Disable (chip o) (pin o)) ;;
  sysfs (PWM_Polarity (chip o) (pin o) (negb (invert_polarity o))) ;;
  sysfs (PWM_Enable (chip o) (pin o)).

Definition pwm_close : method unit :=
  o <- self ;;
  sysfs (PWM_Unexport (chip o) (pin o)).

End Methods.

End PWM.

(** ** Vocabulary of the statements *)

Section Vocabulary.

Context {board : Board}.

(** Every run of [m] relates the state it starts in to the state it ends
    in, whether it returns or raises. *)
Definition stable (R : World -> World -> Prop) {A} (m : gpio A) : Prop :=
  forall w r w', m w = (r, w') -> R w w'.

(** The three globals are untouched. *)
Definition same_globals (w w' : World) : Prop :=
  exports w' = exports w /\ gpio_mode w' = gpio_mode w /\
  gpio_warnings w' = gpio_warnings w.


(** No ledger entry is added. *)
Definition adds_no_entry (w w' : World) : Prop :=
  forall c, Dict.get c (exports w) = None -> Dict.get c (exports w') = None.


(** A relation every step of the code respects: it holds of a state and
    itself, it composes, and an event in the log does not break it. *)
Record frame (R : World -> World -> Prop) : Prop := mkFrame {
  frame_refl : forall w, R w w;
  frame_trans : forall w1 w2 w3, R w1 w2 -> R w2 w3 -> R w1 w3;
  frame_logged : forall ev d w, R w (logged ev d w)
}.

(** The channel has a ledger entry and it says input. *)
Definition is_input (c : channel) (w : World) : bool :=
  match Dict.get c (exports w) with
  | Some IN => true
  | _ => false
  end.

(** The state in which a registration with a bouncetime goes on: the
    advisory is in the log when warnings are enabled and the channel passed
    the check, and nothing else has changed. *)
Definition advised (c : channel) (w : World) : World :=
  if gpio_warnings w && is_input c w
  then logged (Warn BouncetimeUnsupported) (device w) w
  else w.

(** The call returns on the surface in state [d]. *)
Definition returned (c : call) (d : Dev) : bool :=
  match fst (perform c d) with
  | None => true
  | Some _ => false
  end.

(** The rule of [change_frequency], in the spec's words: with new period
    [P], new duty-cycle length [D] and old period [P0], "if
    [new_period_ns > old_period_ns]: write period first, then
    duty-cycle-length; otherwise: write duty-cycle-length first, then
    period". *)
Definition first_write (o : PWM.self_t) (P D P0 : Z) : call :=
  if P >? P0
  then PWM_Period (PWM.chip o) (PWM.pin o) P
  else PWM_Duty_Cycle (PWM.chip o) (PWM.pin o) D.

Definition second_write (o : PWM.self_t) (P D P0 : Z) : call :=
  if P >? P0
  then PWM_Duty_Cycle (PWM.chip o) (PWM.pin o) D
  else PWM_Period (PWM.chip o) (PWM.pin o) P.

(** The calls among the events of a log. *)
Definition calls_of (evs : list event) : list call :=
  flat_map (fun ev => match ev with Call c => [c] | Warn _ => [] end) evs.

End Vocabulary.

(** ** The period and duty-cycle attributes *)

Module Attr.

(** Modelled from the spec: the [sysfs] module is not part of [GPIO.py];
    [t] is the pair of attributes of one PWM channel that [sysfs.PWM_Period]
    and [sysfs.PWM_Duty_Cycle] write, "period" and "duty_cycle", in
    nanoseconds. *)
Record t := mk { period : Z; duty : Z }.

(** Modelled from the spec: what a write of [PWM_Period] or of
    [PWM_Duty_Cycle] would leave in the attributes ("written/read as
    newline-terminated decimal" values, one attribute per write). *)
Definition write (c : call) (a : t) : t :=
  match c with
  | PWM_Period _ _ ns => mk ns (duty a)
  | PWM_Duty_Cycle _ _ ns => mk (period a) ns
  | _ => a
  end.

(** Modelled from the spec: the states the surface accepts, "the
    underlying control surface rejects any write that would leave
    [duty_cycle_length > period_length]". *)
Definition admissible (a : t) : Prop := duty a <= period a.

End Attr.

(** ** A board to run the code on

    Its surface plays back a list of outcomes, one per call, and lets every
    call through once the list is used up; its pin table gives the channel
    numbered [n] the pin [n] when a numbering scheme is set. *)

Definition playback : Board :=
  {| Dev := list (option failure);
     perform := fun _ d =>
       match d with
       | [] => (None, [])
       | o :: r => (o, r)
       end;
     get_gpio_pin := fun m c =>
       match m with
       | Some _ =>
           match c with
           | Number n => inr n
           | Name _ => inl (Other 1)
           end
       | None => inl (Other 0)
       end |}.

(** The module as imported: warnings on, no mode, nothing exported. *)
Definition fresh (script : list (option failure)) : @World playback :=
  @mkWorld playback true None [] script [].

(** [setmode(GPIO.BOARD)] on the module as imported. *)
Definition board_mode (script : list (option failure)) : @World playback :=
  snd (@setmode playback BOARD (fresh script)).

(** Then [setup(12, GPIO.IN)], every call returning. *)
Definition input_12 : @World playback :=
  snd (@setup playback (Chan (Number 12)) IN None None (board_mode [])).

(** [setwarnings(False)] after that. *)
Definition input_12_quiet : @World playback :=
  snd (@setwarnings playback false input_12).

(** The object [PWM(0, 0, 1000, 50)]. *)
Definition pwm_1000_50 : PWM.self_t := PWM.mkSelf 0 0 (Integer 1000) (Integer 50) false.

(** ** Calls that return a value: [input], [wait_for_edge],
    [event_detected], and the LEDs *)

Inductive led := RED | GREEN.

(** What the module reads from its collaborators. *)
Inductive reading :=
| sysfs_input (p : gpio_pin)
| event_blocking_wait_for_edge (p : gpio_pin) (t : trigger) (timeout : Z)
| event_edge_detected (p : gpio_pin).

(** What comes back: [None], a number or a truth value. *)
Inductive pyval :=
| PyNone
| PyInt (n : Z)
| PyBool (b : bool).

(** [observe r d] is the reading [r] on the surface in state [d], and
    [set_led l state d] is [sysfs.setled(l, state)]; each returns or fails
    and leaves the surface in a next state.  They are not events of the
    log, which keeps the calls of type [call] and the advisories. *)
Class Readings (board : Board) := {
  observe : reading -> Dev -> (failure + pyval) * Dev;
  set_led : led -> bool -> Dev -> option failure * Dev
}.

(** The argument of [setled]: a LED or a list. *)
#[warnings="-register-all"]
Inductive led_arg :=
| Led (l : led)
| LedList (ls : list led_arg).

Section Reading.

Context {board : Board} {readings : Readings board}.

Definition with_device (d : Dev) (w : World) : World :=
  mkWorld (gpio_warnings w) (gpio_mode w) (exports w) d (log w).

Definition ask (r : reading) : gpio pyval :=
  fun w =>
    let (v, d) := observe r (device w) in
    match v with
    | inr x => (inr x, with_device d w)
    | inl f => (inl (exn_of f), with_device d w)
    end.

Definition input (c : channel) : gpio pyval :=
  _check_configured c None ;;
  p <- lookup_pin c ;;
  ask (sysfs_input p).

(** [wait_for_edge] returns the channel, or falls off its end ([None]). *)
Definition wait_for_edge (c : channel) (t : trigger) (timeout : Z)
  : gpio (option channel) :=
  _check_configured c (Some IN) ;;
  p <- lookup_pin c ;;
  r <- ask (event_blocking_wait_for_edge p t timeout) ;;
  match r with
  | PyNone => Py.ret None
  | _ => Py.ret (Some c)
  end.

Definition event_detected (c : channel) : gpio pyval :=
  _check_configured c (Some IN) ;;
  p <- lookup_pin c ;;
  ask (event_edge_detected p).

Definition setled_one (l : led) (state : bool) : gpio unit :=
  fun w =>
    let (r, d) := set_led l state (device w) in
    match r with
    | None => (inr tt, with_device d w)
    | Some f => (inl (exn_of f), with_device d w)
    end.

Fixpoint setled (l : led_arg) (state : bool) {struct l} : gpio unit :=
  match l with
  | LedList ls => Py.for_each (fun x => setled x state) ls
  | Led x => setled_one x state
  end.

(** The LEDs of an argument of [setled], left to right. *)
Fixpoint leds_of (l : led_arg) : list led :=
  match l with
  | Led x => [x]
  | LedList ls => flat_map leds_of ls
  end.

(** [sysfs.setled] on the LEDs of a list in turn, up to the first that
    fails. *)
Fixpoint switch_leds (ls : list led) (state : bool) (d : Dev)
  : option failure * Dev :=
  match ls with
  | [] => (None, d)
  | x :: r =>
      match set_led x state d with
      | (None, d') => switch_leds r state d'
      | (Some f, d') => (Some f, d')
      end
  end.

(** The module's state with only the surface moved on, and the result that
    goes with the outcome on the surface. *)
Definition passed_through (r : option failure * Dev) (w : World)
  : (exn + unit) * World :=
  match r with
  | (None, d) => (inr tt, with_device d w)
  | (Some f, d) => (inl (exn_of f), with_device d w)
  end.

End Reading.

(** ** Vocabulary of the further statements *)

Section Vocabulary2.

Context {board : Board}.

(** [_mode] and [_gpio_warnings] are untouched. *)
Definition same_settings (w w' : World) : Prop :=
  gpio_mode w' = gpio_mode w /\ gpio_warnings w' = gpio_warnings w.

(** Only the surface may differ. *)
Definition same_but_device (w w' : World) : Prop :=
  same_globals w w' /\ log w' = log w.

(** Every write of the period or of the duty-cycle length among the events,
    taken in order from the attributes [a], leaves attributes the surface
    accepts. *)
Fixpoint writes_admissible (evs : list event) (a : Attr.t) : Prop :=
  match evs with
  | [] => True
  | Call c :: r =>
      Attr.admissible (Attr.write c a) /\ writes_admissible r (Attr.write c a)
  | Warn _ :: r => writes_admissible r a
  end.

(** The percentage [percent] gives, at the frequency [hz], a duty-cycle
    length no longer than the period. *)
Definition fits (percent hz : pynum) : Prop :=
  exists P D,
    Num.period_ns hz = inr P /\ Num.duty_ns percent P = inr D /\ D <= P.

(** The world in which the pull-up/down advisory, if any, has been given. *)
Definition pull_advised (w : World) : World :=
  if gpio_warnings w
  then logged (Warn PullUpDownUnsupported) (device w) w
  else w.

(** What [_check_configured(channel, OUT)] raises on a channel that is
    not an output. *)
Definition not_an_output (c : channel) (w : World) : exn :=
  match Dict.get c (exports w) with
  | Some d => RuntimeError (ConfiguredFor c d)
  | None => RuntimeError (NotConfigured c)
  end.

(** What [_check_configured(channel, IN)] raises on a channel that is not
    an input. *)
Definition not_an_input (c : channel) (w : World) : exn :=
  match Dict.get c (exports w) with
  | Some d => RuntimeError (ConfiguredFor c d)
  | None => RuntimeError (NotConfigured c)
  end.

End Vocabulary2.

(** A board whose readings are played back like its calls: pin 12 reads 1,
    an edge wait times out when its timeout is 0 and sees an edge
    otherwise, and no edge has been latched. *)
Definition playback_observe (r : reading) (d : list (option failure))
  : (failure + pyval) * list (option failure) :=
  match r with
  | sysfs_input p => (inr (PyInt (if p =? 12 then 1 else 0)), d)
  | event_blocking_wait_for_edge p t timeout =>
      (inr (if timeout =? 0 then PyNone else PyInt p), d)
  | event_edge_detected p => (inr (PyBool false), d)
  end.

Definition playback_set_led (l : led) (state : bool)
    (d : list (option failure)) : option failure * list (option failure) :=
  match d with
  | [] => (None, [])
  | o :: r => (o, r)
  end.

Definition playback_readings : Readings playback :=
  @Build_Readings playback playback_observe playback_set_led.

(** [setmode(GPIO.BOARD)] and [setup(12, GPIO.IN)] on a surface that lets
    the export and the direction through and then refuses a call with
    errno 5. *)
Definition input_12_then_refusal : @World playback :=
  snd (@setup playback (Chan (Number 12)) IN None None
         (board_mode [None; None; Some (Errno 5)])).

(** [setup(7, GPIO.OUT)] after [setup(12, GPIO.IN)]. *)
Definition input_12_output_7 : @World playback :=
  snd (@setup playback (Chan (Number 7)) OUT None None input_12).

(** * Properties *)

Lemma direction_eqb_refl d : direction_eqb d d = true.
Proof. destruct d; reflexivity. Qed.

(** ** The loop *)

Section Loop.

Context {St A : Type} (f : A -> Py.M St unit).

Lemma for_each_cons x l s :
  Py.for_each f (x :: l) s =
  match f x s with
  | (inr _, s') => Py.for_each f l s'
  | (inl e, s') => (inl e, s')
  end.
Proof. reflexivity. Qed.



End Loop.

(** ** The dictionary *)

Lemma channel_eqb_eq a b : channel_eqb a b = true <-> a = b.
Proof.
  destruct a as [n|s], b as [m|t]; cbn; try (split; discriminate).
  - rewrite Z.eqb_eq. split; congruence.
  - rewrite String.eqb_eq. split; congruence.
Qed.

Lemma channel_eqb_refl a : channel_eqb a a = true.
Proof. now apply channel_eqb_eq. Qed.

Lemma channel_eqb_neq a b : a <> b -> channel_eqb a b = false.
Proof.
  intros N. destruct (channel_eqb a b) eqn:E; [|reflexivity].
  apply channel_eqb_eq in E. contradiction.
Qed.

Lemma channel_eq_dec (a b : channel) : {a = b} + {a <> b}.
Proof.
  destruct (channel_eqb a b) eqn:E.
  - left. now apply channel_eqb_eq.
  - right. intros ->. rewrite channel_eqb_refl in E. discriminate.
Qed.

Lemma dict_get_set_same k v d : Dict.get k (Dict.set k v d) = Some v.
Proof.
  induction d as [|[k' v'] d IH]; simpl.
  - now rewrite channel_eqb_refl.
  - destruct (channel_eqb k k') eqn:E; simpl;
      rewrite ?channel_eqb_refl, ?E; auto.
Qed.


Lemma dict_get_remove_same k d : Dict.get k (Dict.remove k d) = None.
Proof.
  induction d as [|[k' v'] d IH]; simpl; auto.
  destruct (channel_eqb k k') eqn:E; simpl; auto. now rewrite E.
Qed.

Lemma dict_get_remove_other k k' d :
  k <> k' -> Dict.get k' (Dict.remove k d) = Dict.get k' d.
Proof.
  intros N. assert (N' : channel_eqb k' k = false)
    by (apply channel_eqb_neq; congruence).
  induction d as [|[k0 v0] d IH]; simpl; auto.
  destruct (channel_eqb k k0) eqn:E; simpl.
  - apply channel_eqb_eq in E. subst k0. now rewrite N'.
  - now rewrite IH.
Qed.

(** ** The ledger *)

Section Ledger.

Context {board : Board}.

(** *** Inversion of the monad's operations *)

Lemma bind_ok St A B (m : Py.M St A) (k : A -> Py.M St B) s b s' :
  Py.bind m k s = (inr b, s') ->
  exists a s1, m s = (inr a, s1) /\ k a s1 = (inr b, s').
Proof.
  unfold Py.bind. destruct (m s) as [[e|a] s1]; intros H; [discriminate|].
  now exists a, s1.
Qed.

Lemma bind_cases St A B (m : Py.M St A) (k : A -> Py.M St B) s r s' :
  Py.bind m k s = (r, s') ->
  (exists e, m s = (inl e, s') /\ r = inl e) \/
  (exists a s1, m s = (inr a, s1) /\ k a s1 = (r, s')).
Proof.
  unfold Py.bind. destruct (m s) as [[e|a] s1]; intros H.
  - left. exists e. inversion H; auto.
  - right. now exists a, s1.
Qed.

Lemma bind_run St A B (m : Py.M St A) (k : A -> Py.M St B) s a s1 :
  m s = (inr a, s1) -> Py.bind m k s = k a s1.
Proof. unfold Py.bind. now intros ->. Qed.

Lemma bind_fail St A B (m : Py.M St A) (k : A -> Py.M St B) s e s1 :
  m s = (inl e, s1) -> Py.bind m k s = (inl e, s1).
Proof. unfold Py.bind. now intros ->. Qed.

(** *** What a call leaves behind *)

Lemma sys_cases c w r w' :
  sys c w = (r, w') ->
  exists o d, perform c (device w) = (o, d) /\ w' = logged (Call c) d w /\
    r = match o with None => inr tt | Some f => inl (exn_of f) end.
Proof.
  unfold sys. destruct (perform c (device w)) as [o d]. intros H.
  exists o, d. destruct o; inversion H; auto.
Qed.

Lemma check_configured_present c d w :
  Dict.get c (exports w) = Some d ->
  _check_configured c (Some d) w = (inr tt, w).
Proof.
  intros H. unfold _check_configured, Py.bind, Py.get. rewrite H.
  now rewrite direction_eqb_refl.
Qed.

Lemma check_configured_absent c dir w :
  Dict.get c (exports w) = None ->
  _check_configured c dir w = (inl (RuntimeError (NotConfigured c)), w).
Proof.
  intros H. unfold _check_configured, Py.bind, Py.get. now rewrite H.
Qed.

Lemma check_configured_state c dir w r w' :
  _check_configured c dir w = (r, w') -> w' = w.
Proof.
  unfold _check_configured, Py.bind, Py.get, Py.raise, Py.ret.
  destruct (Dict.get c (exports w)); [destruct dir as [d0|]|];
    try destruct (negb _); intros H; now inversion H.
Qed.

(** *** Frames *)

Section Frames.

Variable R : World -> World -> Prop.
Hypothesis HR : frame R.

Lemma stable_ret A (a : A) : stable R (Py.ret a).
Proof. intros w r w' H. inversion H. apply (frame_refl HR). Qed.

Lemma stable_raise A e : stable R (@Py.raise World A e).
Proof. intros w r w' H. inversion H. apply (frame_refl HR). Qed.

Lemma stable_eval A (v : exn + A) : stable R (Py.eval v).
Proof. intros w r w' H. inversion H. apply (frame_refl HR). Qed.

Lemma stable_get : stable R (@Py.get World).
Proof. intros w r w' H. inversion H. apply (frame_refl HR). Qed.

Lemma stable_bind A B (m : gpio A) (k : A -> gpio B) :
  stable R m -> (forall a, stable R (k a)) -> stable R (Py.bind m k).
Proof.
  intros Hm Hk w r w'. unfold Py.bind.
  destruct (m w) as [[e|a] w1] eqn:E; intros H.
  - inversion H; subst. eapply Hm; eauto.
  - eapply (frame_trans HR); [eapply Hm|eapply Hk]; eauto.
Qed.

Lemma stable_try_except A (m : gpio A) (h : exn -> gpio A) :
  stable R m -> (forall e, stable R (h e)) -> stable R (Py.try_except m h).
Proof.
  intros Hm Hh w r w'. unfold Py.try_except.
  destruct (m w) as [[e|a] w1] eqn:E; intros H.
  - eapply (frame_trans HR); [eapply Hm|eapply Hh]; eauto.
  - inversion H; subst. eapply Hm; eauto.
Qed.

Lemma stable_when b (m : gpio unit) : stable R m -> stable R (Py.when b m).
Proof. destruct b; cbn; auto using stable_ret. Qed.

Lemma stable_for_each A (f : A -> gpio unit) l :
  Forall (fun x => stable R (f x)) l -> stable R (Py.for_each f l).
Proof.
  induction 1 as [|x l Hx _ IH].
  - apply stable_ret.
  - change (Py.for_each f (x :: l))
      with (Py.bind (f x) (fun _ => Py.for_each f l)).
    apply stable_bind; auto.
Qed.

Lemma stable_sys c : stable R (sys c).
Proof.
  intros w r w' H. apply sys_cases in H as (o & d & _ & -> & _).
  apply (frame_logged HR).
Qed.

Lemma stable_warn a : stable R (warn a).
Proof. intros w r w' H. inversion H. apply (frame_logged HR). Qed.

Lemma stable_lookup_pin c : stable R (lookup_pin c).
Proof.
  intros w r w'. unfold lookup_pin.
  destruct (get_gpio_pin (gpio_mode w) c); intros H; inversion H;
    apply (frame_refl HR).
Qed.

Lemma stable_check_configured c dir : stable R (_check_configured c dir).
Proof.
  intros w r w' H. apply check_configured_state in H as ->.
  apply (frame_refl HR).
Qed.

Lemma stable_export_retrying c p : stable R (export_retrying c p).
Proof.
  unfold export_retrying. apply stable_try_except; [apply stable_sys|].
  intros [ | | | | | |errno| ]; try apply stable_raise.
  destruct (errno =? 16); [|apply stable_raise].
  apply stable_bind; [apply stable_get|]. intros w.
  apply stable_bind; [apply stable_when, stable_warn|]. intros _.
  apply stable_bind; intros; apply stable_sys.
Qed.

Lemma stable_pull_notice p : stable R (pull_notice p).
Proof.
  destruct p; [|apply stable_ret].
  apply stable_bind; [apply stable_get|]. intros w.
  apply stable_when, stable_warn.
Qed.

Lemma stable_bouncetime_notice b : stable R (bouncetime_notice b).
Proof.
  destruct b; [|apply stable_ret].
  apply stable_bind; [apply stable_get|]. intros w.
  apply stable_when, stable_warn.
Qed.

End Frames.

Lemma frame_same_globals : frame same_globals.
Proof.
  split; unfold same_globals.
  - auto.
  - intros w1 w2 w3 (? & ? & ?) (? & ? & ?). repeat split; congruence.
  - intros; now cbn.
Qed.


Lemma frame_adds_no_entry : frame adds_no_entry.
Proof. split; unfold adds_no_entry; cbn; auto. Qed.


(** *** An induction principle that goes into the lists *)

Lemma chan_arg_nested_ind (P : chan_arg -> Prop) :
  (forall c, P (Chan c)) ->
  (forall l, Forall P l -> P (ChanList l)) ->
  forall a, P a.
Proof.
  intros Hc Hl.
  exact (fix rec (a : chan_arg) : P a :=
           match a with
           | Chan c => Hc c
           | ChanList l =>
               Hl l ((fix all (l : list chan_arg) : Forall P l :=
                        match l with
                        | [] => Forall_nil P
                        | x :: r => Forall_cons x (rec x) (all r)
                        end) l)
           end).
Qed.

(** *** [setup] *)

Lemma setup_unset ch dir initial pud w :
  gpio_mode w = None ->
  setup ch dir initial pud w = (inl (RuntimeError ModeNotSet), w).
Proof.
  intros H. destruct ch; cbn; unfold Py.bind, Py.get; now rewrite H.
Qed.

Lemma setup_set ch dir initial pud w m :
  gpio_mode w = Some m ->
  setup ch dir initial pud w =
  (pull_notice pud ;;
   match ch with
   | ChanList l => Py.for_each (fun x => setup x dir initial None) l
   | Chan c => setup_channel c dir initial
   end) w.
Proof.
  intros H. destruct ch; cbn [setup]; unfold Py.bind at 1, Py.get;
    now rewrite H.
Qed.

Lemma setup_channel_records c dir initial w w' :
  setup_channel c dir initial w = (inr tt, w') ->
  Dict.get c (exports w') = Some dir.
Proof.
  unfold setup_channel. intros H.
  apply bind_ok in H as (w0 & w1 & E0 & H). inversion E0; subst w0 w1.
  destruct (Dict.mem c (exports w)); [discriminate|].
  apply bind_ok in H as (p & w1 & _ & H).
  apply bind_ok in H as ([] & w2 & _ & H).
  apply bind_ok in H as ([] & w3 & _ & H).
  apply bind_ok in H as ([] & w4 & E4 & H).
  inversion E4; subst w4.
  assert (S : same_globals
                (set_exports_field (Dict.set c dir (exports w3)) w3) w').
  { destruct dir, initial;
      first [ eapply (stable_sys frame_same_globals); eassumption
            | eapply (stable_ret frame_same_globals); eassumption ]. }
  destruct S as (-> & _). cbn. apply dict_get_set_same.
Qed.

Lemma setup_records c dir initial pud w w' :
  setup (Chan c) dir initial pud w = (inr tt, w') ->
  Dict.get c (exports w') = Some dir.
Proof.
  intros H. destruct (gpio_mode w) as [m|] eqn:Em.
  - rewrite (setup_set _ _ _ _ _ Em) in H.
    apply bind_ok in H as ([] & w1 & _ & H).
    eapply setup_channel_records; eauto.
  - rewrite setup_unset in H by assumption. discriminate.
Qed.





(** C6.  While no numbering scheme is set, [setup] raises "Mode has not been
    set" for every channel (and every list of channels) and changes
    nothing; and when [setup(channel, direction)] has returned, the check
    [_check_configured(channel, direction)] with the same direction passes
    in the state [setup] left. *)
Theorem setup_needs_mode_then_satisfies_check :
  (forall ch dir initial pud w,
     gpio_mode w = None ->
     setup ch dir initial pud w = (inl (RuntimeError ModeNotSet), w)) /\
  (forall c dir initial pud w w',
     setup (Chan c) dir initial pud w = (inr tt, w') ->
     _check_configured c (Some dir) w' = (inr tt, w')).
Proof.
  split.
  - intros. now apply setup_unset.
  - intros c dir initial pud w w' H.
    apply check_configured_present. eapply setup_records; eauto.
Qed.

(** *** [cleanup] *)

Lemma cleanup_channel_absent c w :
  Dict.get c (exports w) = None ->
  cleanup_channel c w = (inl (RuntimeError (NotConfigured c)), w).
Proof.
  intros H. unfold cleanup_channel.
  now rewrite bind_fail with (1 := check_configured_absent _ _ _ H).
Qed.

Lemma cleanup_channel_ok c w w' :
  cleanup_channel c w = (inr tt, w') ->
  exists p d1 d2,
    get_gpio_pin (gpio_mode w) c = inr p /\
    perform (event_cleanup p) (device w) = (None, d1) /\
    perform (sysfs_unexport p) d1 = (None, d2) /\
    w' = set_exports_field (Dict.remove c (exports w))
           (logged (Call (sysfs_unexport p)) d2
              (logged (Call (event_cleanup p)) d1 w)).
Proof.
  unfold cleanup_channel. intros H.
  apply bind_ok in H as ([] & w0 & E0 & H).
  apply check_configured_state in E0 as ->.
  apply bind_ok in H as (p & w1 & E1 & H).
  unfold lookup_pin in E1.
  destruct (get_gpio_pin (gpio_mode w) c) as [f|p'] eqn:Ep;
    inversion E1; subst p' w1; clear E1.
  apply bind_ok in H as ([] & w2 & E2 & H).
  apply sys_cases in E2 as ([f1|] & d1 & P1 & -> & R1); [discriminate R1|].
  apply bind_ok in H as ([] & w3 & E3 & H).
  apply sys_cases in E3 as ([f2|] & d2 & P2 & -> & R2); [discriminate R2|].
  apply bind_ok in H as (w4 & w5 & E4 & H). inversion E4; subst w4 w5.
  cbn [exports logged] in H.
  destruct (Dict.get c (exports w)); [|discriminate].
  inversion H. exists p, d1, d2. auto.
Qed.

Lemma dict_remove_adds_none k c d :
  Dict.get k d = None -> Dict.get k (Dict.remove c d) = None.
Proof.
  intros H. destruct (channel_eq_dec c k) as [->|N].
  - apply dict_get_remove_same.
  - now rewrite dict_get_remove_other.
Qed.

Lemma cleanup_channel_adds_none c : stable adds_no_entry (cleanup_channel c).
Proof.
  unfold cleanup_channel.
  apply (stable_bind frame_adds_no_entry);
    [apply (stable_check_configured frame_adds_no_entry)|intros _].
  apply (stable_bind frame_adds_no_entry);
    [apply (stable_lookup_pin frame_adds_no_entry)|intros p].
  apply (stable_bind frame_adds_no_entry);
    [apply (stable_sys frame_adds_no_entry)|intros _].
  apply (stable_bind frame_adds_no_entry);
    [apply (stable_sys frame_adds_no_entry)|intros _].
  apply (stable_bind frame_adds_no_entry);
    [apply (stable_get frame_adds_no_entry)|intros w0].
  destruct (Dict.get c (exports w0));
    [|apply (stable_raise frame_adds_no_entry)].
  intros w r w' H. inversion H. intros k G. cbn.
  now apply dict_remove_adds_none.
Qed.

Lemma cleanup_arg_adds_none ch : stable adds_no_entry (cleanup_arg ch).
Proof.
  induction ch as [c|l IH] using chan_arg_nested_ind.
  - apply cleanup_channel_adds_none.
  - cbn [cleanup_arg]. now apply (stable_for_each frame_adds_no_entry).
Qed.


Lemma cleanup_keys ks : forall w w',
  Py.for_each (fun x => cleanup_arg x) (map Chan ks) w = (inr tt, w') ->
  exports w' = fold_left (fun d k => Dict.remove k d) ks (exports w) /\
  gpio_mode w' = gpio_mode w.
Proof.
  induction ks as [|k ks IH]; intros w w' H.
  - inversion H. auto.
  - cbn [map] in H. rewrite for_each_cons in H.
    destruct (cleanup_arg (Chan k) w) as [[e|[]] w1] eqn:Ea; [discriminate|].
    cbn [cleanup_arg] in Ea.
    apply cleanup_channel_ok in Ea as (p & d1 & d2 & _ & _ & _ & ->).
    apply IH in H as (-> & ->). now cbn.
Qed.

Lemma remove_all_in ks : forall d kv,
  In kv (fold_left (fun d k => Dict.remove k d) ks d) ->
  In kv d /\ ~ In (fst kv) ks.
Proof.
  induction ks as [|k ks IH]; intros d kv H; cbn in *; [auto|].
  apply IH in H as (H & N). unfold Dict.remove in H.
  apply filter_In in H as (H & E). split; [assumption|].
  intros [->|?]; [|contradiction]. now rewrite channel_eqb_refl in E.
Qed.

Lemma remove_all_keys d :
  fold_left (fun d k => Dict.remove k d) (Dict.keys d) d = [].
Proof.
  destruct (fold_left _ (Dict.keys d) d) as [|kv r] eqn:E; [reflexivity|].
  assert (H : In kv (fold_left (fun d k => Dict.remove k d) (Dict.keys d) d))
    by (rewrite E; now left).
  apply remove_all_in in H as (H & N). exfalso. apply N.
  unfold Dict.keys. now apply in_map.
Qed.

Lemma cleanup_keys_log ks : forall w w',
  Py.for_each (fun x => cleanup_arg x) (map Chan ks) w = (inr tt, w') ->
  exists ps,
    Forall2 (fun c p => get_gpio_pin (gpio_mode w) c = inr p) ks ps /\
    log w' = log w ++
      flat_map (fun p => [Call (event_cleanup p); Call (sysfs_unexport p)]) ps.
Proof.
  induction ks as [|k ks IH]; intros w w' H.
  - inversion H. exists []. split; [constructor|]. now rewrite app_nil_r.
  - cbn [map] in H. rewrite for_each_cons in H.
    destruct (cleanup_arg (Chan k) w) as [[e|[]] w1] eqn:Ea; [discriminate|].
    cbn [cleanup_arg] in Ea.
    apply cleanup_channel_ok in Ea as (p & d1 & d2 & Hp & _ & _ & ->).
    apply IH in H as (ps & F & L). cbn in F, L.
    exists (p :: ps). split; [now constructor|].
    rewrite L. cbn. now rewrite <- !app_assoc.
Qed.

(** C7.  [cleanup(channel)] on a channel with no ledger entry raises
    "Channel ... is not configured" and changes nothing.  When
    [cleanup(channel)] returns, it has called [event.cleanup] and then
    [sysfs.unexport] on the channel's pin, both returned, and the channel's
    entry is gone from the ledger.  When [cleanup()] returns, it has
    released every channel of the ledger, [event.cleanup] and then
    [sysfs.unexport] on the pin of each in turn, the ledger is empty, no
    numbering scheme is set and warnings are enabled. *)
Theorem cleanup_releases :
  (forall c w,
     Dict.get c (exports w) = None ->
     cleanup (Some (Chan c)) w = (inl (RuntimeError (NotConfigured c)), w)) /\
  (forall c w w',
     cleanup (Some (Chan c)) w = (inr tt, w') ->
     exists p d1,
       get_gpio_pin (gpio_mode w) c = inr p /\
       perform (event_cleanup p) (device w) = (None, d1) /\
       perform (sysfs_unexport p) d1 = (None, device w') /\
       log w' = log w ++ [Call (event_cleanup p); Call (sysfs_unexport p)] /\
       exports w' = Dict.remove c (exports w) /\
       Dict.get c (exports w') = None) /\
  (forall w w',
     cleanup None w = (inr tt, w') ->
     exports w' = [] /\ gpio_mode w' = None /\ gpio_warnings w' = true /\
     exists ps,
       Forall2 (fun c p => get_gpio_pin (gpio_mode w) c = inr p)
               (Dict.keys (exports w)) ps /\
       log w' = log w ++
         flat_map (fun p => [Call (event_cleanup p); Call (sysfs_unexport p)])
                  ps).
Proof.
  split; [|split].
  - intros c w H. now apply cleanup_channel_absent.
  - intros c w w' H. cbn [cleanup cleanup_arg] in H.
    apply cleanup_channel_ok in H as (p & d1 & d2 & Hp & H1 & H2 & ->).
    exists p, d1. cbn. rewrite <- app_assoc.
    repeat split; auto using dict_get_remove_same.
  - intros w w' H. cbn [cleanup] in H.
    apply bind_ok in H as (w0 & w1 & E0 & H). inversion E0; subst w0 w1.
    apply bind_ok in H as ([] & w1 & E1 & H).
    cbn [cleanup_arg] in E1.
    pose proof (cleanup_keys_log _ _ E1) as (ps & F & L).
    apply cleanup_keys in E1 as (E1 & _).
    inversion H. cbn. rewrite E1, remove_all_keys.
    repeat split. now exists ps.
Qed.

(** *** [output] *)





(** *** Registration of edge detection *)

Lemma bouncetime_notice_run b w :
  bouncetime_notice (Some b) w =
  (inr tt, if gpio_warnings w
           then logged (Warn BouncetimeUnsupported) (device w) w
           else w).
Proof.
  unfold bouncetime_notice, Py.bind, Py.get. now destruct (gpio_warnings w).
Qed.

Lemma check_input_run c w :
  _check_configured c (Some IN) w =
  (if is_input c w then inr tt
   else match Dict.get c (exports w) with
        | Some d => inl (RuntimeError (ConfiguredFor c d))
        | None => inl (RuntimeError (NotConfigured c))
        end, w).
Proof.
  unfold _check_configured, is_input, Py.bind, Py.get.
  destruct (Dict.get c (exports w)) as [[|]|]; reflexivity.
Qed.

Lemma advised_exports c w : exports (advised c w) = exports w.
Proof. unfold advised. now destruct (gpio_warnings w && is_input c w). Qed.

Lemma advised_is_input c w : is_input c (advised c w) = is_input c w.
Proof. unfold is_input. now rewrite advised_exports. Qed.

Lemma registration_with_bouncetime A c b (k : gpio A) w :
  (_check_configured c (Some IN) ;; bouncetime_notice (Some b) ;; k) w =
  (_check_configured c (Some IN) ;; bouncetime_notice None ;; k) (advised c w).
Proof.
  unfold Py.bind at 1 3. rewrite !check_input_run.
  rewrite advised_is_input, advised_exports. unfold advised.
  destruct (is_input c w) eqn:I.
  - rewrite andb_true_r. unfold Py.bind.
    rewrite bouncetime_notice_run. cbn. reflexivity.
  - rewrite andb_false_r. now destruct (Dict.get c (exports w)).
Qed.

(** C9, as the code has it.  The value of [bouncetime] is never looked at:
    [add_event_detect] and [add_event_callback] with a bouncetime [b], of
    any sign, do what they do without one, started in the state [advised]:
    the only trace of the parameter is the advisory, raised when warnings
    are enabled and the channel passed the input check.  The call that
    reaches the edge engine is the one made without a bouncetime, so the
    value is not recorded and suppresses nothing. *)
Theorem bouncetime_is_only_an_advisory c t cb b w :
  add_event_detect c t cb (Some b) w =
    add_event_detect c t cb None (advised c w) /\
  add_event_callback c cb (Some b) w =
    add_event_callback c cb None (advised c w).
Proof.
  split; apply registration_with_bouncetime.
Qed.

End Ledger.

(** ** The PWM channel *)

Section Channel.

Context {board : Board}.

Import PWM.

Lemma sysfs_run c o w :
  sysfs c (o, w) =
  match perform c (device w) with
  | (None, d) => (inr tt, (o, logged (Call c) d w))
  | (Some f, d) => (inl (exn_of f), (o, logged (Call c) d w))
  end.
Proof.
  unfold sysfs, sys. cbn. now destruct (perform c (device w)) as [[f|] d].
Qed.

(** [change_frequency], once its three numbers are known. *)
Lemma change_frequency_run hz o w P D P0 :
  Num.period_ns hz = inr P ->
  Num.duty_ns (duty_cycle_percent o) P = inr D ->
  Num.period_ns (frequency o) = inr P0 ->
  change_frequency hz (o, w) =
  match perform (first_write o P D P0) (device w) with
  | (Some f, d1) =>
      (inl (exn_of f), (o, logged (Call (first_write o P D P0)) d1 w))
  | (None, d1) =>
      match perform (second_write o P D P0) d1 with
      | (Some f, d2) =>
          (inl (exn_of f),
           (o, logged (Call (second_write o P D P0)) d2
                 (logged (Call (first_write o P D P0)) d1 w)))
      | (None, d2) =>
          (inr tt,
           (with_frequency hz o,
            logged (Call (second_write o P D P0)) d2
              (logged (Call (first_write o P D P0)) d1 w)))
      end
  end.
Proof.
  intros HP HD HP0.
  unfold change_frequency, first_write, second_write, Py.bind, self, Py.eval.
  cbn [fst snd]. rewrite HP, HD, HP0.
  destruct (P >? P0); rewrite sysfs_run;
    (destruct (perform _ (device w)) as [[f1|] d1]; [reflexivity|]);
    rewrite sysfs_run; cbn [device logged];
    destruct (perform _ d1) as [[f2|] d2]; reflexivity.
Qed.

(** When the arithmetic raises, nothing is written and nothing is stored. *)
Lemma change_frequency_no_numbers hz o w :
  (forall P D P0,
     Num.period_ns hz = inr P ->
     Num.duty_ns (duty_cycle_percent o) P = inr D ->
     Num.period_ns (frequency o) = inr P0 -> False) ->
  exists e, change_frequency hz (o, w) = (inl e, (o, w)).
Proof.
  intros N. unfold change_frequency, Py.bind, self, Py.eval. cbn [fst snd].
  destruct (Num.period_ns hz) as [e|P] eqn:HP; [now exists e|].
  destruct (Num.duty_ns (duty_cycle_percent o) P) as [e|D] eqn:HD;
    [now exists e|].
  destruct (Num.period_ns (frequency o)) as [e|P0] eqn:HP0; [now exists e|].
  exfalso. exact (N P D P0 eq_refl HD eq_refl).
Qed.

Lemma change_frequency_log hz o w P D P0 :
  Num.period_ns hz = inr P ->
  Num.duty_ns (duty_cycle_percent o) P = inr D ->
  Num.period_ns (frequency o) = inr P0 ->
  log (snd (snd (change_frequency hz (o, w)))) =
  log w ++ Call (first_write o P D P0) ::
    (if returned (first_write o P D P0) (device w)
     then [Call (second_write o P D P0)] else []).
Proof.
  intros HP HD HP0.
  rewrite change_frequency_run with (P := P) (D := D) (P0 := P0)
    by assumption.
  unfold returned.
  destruct (perform (first_write o P D P0) (device w)) as [[f1|] d1];
    [reflexivity|].
  destruct (perform (second_write o P D P0) d1) as [[f2|] d2];
    cbn; now rewrite <- app_assoc.
Qed.


(** C2, as the code has it.  On a channel at 1000 Hz and 50 %,
    [change_frequency(500)] writes the period, 2,000,000 ns, and then, when
    that write has returned, the duty-cycle length, 1,000,000 ns. *)
Theorem change_frequency_1000_to_500 chip pin inv w :
  log (snd (snd (change_frequency (Integer 500)
                   (mkSelf chip pin (Integer 1000) (Integer 50) inv, w)))) =
  log w ++ Call (PWM_Period chip pin 2000000) ::
    (if returned (PWM_Period chip pin 2000000) (device w)
     then [Call (PWM_Duty_Cycle chip pin 1000000)] else []).
Proof.
  apply change_frequency_log with (P := 2000000) (D := 1000000)
                                  (P0 := 1000000); reflexivity.
Qed.

(** C4.  [self.frequency] is assigned last.  Whenever [change_frequency]
    raises, the object is as it was; when it returns, the object is the old
    one with the new frequency; and it returns exactly when both writes
    have returned, so a write that fails leaves the stored frequency
    alone. *)
Theorem change_frequency_commits_last hz o w :
  (forall e, fst (change_frequency hz (o, w)) = inl e ->
             fst (snd (change_frequency hz (o, w))) = o) /\
  (fst (change_frequency hz (o, w)) = inr tt ->
   fst (snd (change_frequency hz (o, w))) = with_frequency hz o) /\
  (forall P D P0,
     Num.period_ns hz = inr P ->
     Num.duty_ns (duty_cycle_percent o) P = inr D ->
     Num.period_ns (frequency o) = inr P0 ->
     fst (change_frequency hz (o, w)) = inr tt <->
     returned (first_write o P D P0) (device w) = true /\
     returned (second_write o P D P0)
       (snd (perform (first_write o P D P0) (device w))) = true).
Proof.
  assert (Numbers :
    (exists P D P0,
       Num.period_ns hz = inr P /\
       Num.duty_ns (duty_cycle_percent o) P = inr D /\
       Num.period_ns (frequency o) = inr P0) \/
    (exists e, change_frequency hz (o, w) = (inl e, (o, w)))).
  { destruct (Num.period_ns hz) as [e1|P] eqn:HP.
    2: destruct (Num.duty_ns (duty_cycle_percent o) P) as [e2|D] eqn:HD.
    3: destruct (Num.period_ns (frequency o)) as [e3|P0] eqn:HP0.
    4: now left; exists P, D, P0.
    all: right; apply change_frequency_no_numbers; intros; congruence. }
  split; [|split].
  - intros e. destruct Numbers as [(P & D & P0 & HP & HD & HP0)|(e' & ->)];
      [|reflexivity].
    rewrite change_frequency_run with (P := P) (D := D) (P0 := P0)
      by assumption.
    destruct (perform (first_write o P D P0) (device w)) as [[f1|] d1];
      [reflexivity|].
    destruct (perform (second_write o P D P0) d1) as [[f2|] d2];
      [reflexivity|discriminate].
  - destruct Numbers as [(P & D & P0 & HP & HD & HP0)|(e' & ->)];
      [|discriminate].
    rewrite change_frequency_run with (P := P) (D := D) (P0 := P0)
      by assumption.
    destruct (perform (first_write o P D P0) (device w)) as [[f1|] d1];
      [discriminate|].
    destruct (perform (second_write o P D P0) d1) as [[f2|] d2];
      [discriminate|reflexivity].
  - intros P D P0 HP HD HP0.
    rewrite change_frequency_run with (P := P) (D := D) (P0 := P0)
      by assumption.
    unfold returned.
    destruct (perform (first_write o P D P0) (device w)) as [[f1|] d1];
      cbn [fst snd].
    + split; [discriminate|]. intros (H & _). discriminate.
    + destruct (perform (second_write o P D P0) d1) as [[f2|] d2];
        cbn [fst snd].
      * split; [discriminate|]. intros (_ & H). discriminate.
      * split; auto.
Qed.

(** Outside NaN, the test [0 <= percent <= 100] fails exactly when
    [percent < 0] or [percent > 100]. *)
Lemma not_percentage_iff percent :
  Num.is_nan percent = false ->
  Num.is_percentage percent = false <->
  Num.lt percent (Integer 0) = true \/ Num.lt (Integer 100) percent = true.
Proof.
  unfold Num.is_nan, Num.is_percentage, Num.le, Num.lt.
  cbn [Num.ext_of]. destruct (Num.ext_of percent) as [| | |q]; cbn.
  - discriminate.
  - intros _. split; auto.
  - intros _. split; auto.
  - intros _.
    destruct (Qle_bool (0 # 1) q), (Qle_bool q (100 # 1)); cbn;
      intuition congruence.
Qed.

(** On [int]s the comparisons are those of the integers. *)
Lemma le_integers a b : Num.le (Integer a) (Integer b) = (a <=? b).
Proof.
  unfold Num.le. cbn. unfold Qle_bool. cbn. now rewrite !Z.mul_1_r.
Qed.

(** C5, as the code has it.  [duty_cycle(percent)] raises its out-of-bounds
    exception exactly when the test [0 <= percent <= 100] fails, and then
    neither the object nor the module's state, log included, has changed;
    for every percentage but NaN the test fails exactly when [percent < 0]
    or [percent > 100].  When the test holds, the percentage is stored and
    [sysfs.PWM_Duty_Cycle_Percent] is called with it, once, whatever the
    call then does. *)
Theorem duty_cycle_range_check percent o w :
  ((exists p s, duty_cycle percent (o, w) = (inl (DutyCycleOutOfBounds p), s))
   <-> Num.is_percentage percent = false) /\
  (Num.is_nan percent = false ->
   (Num.is_percentage percent = false <->
    Num.lt percent (Integer 0) = true \/
    Num.lt (Integer 100) percent = true)) /\
  (Num.is_percentage percent = false ->
   duty_cycle percent (o, w) = (inl (DutyCycleOutOfBounds percent), (o, w))) /\
  (Num.is_percentage percent = true ->
   fst (snd (duty_cycle percent (o, w))) = with_percent percent o /\
   log (snd (snd (duty_cycle percent (o, w)))) =
     log w ++ [Call (PWM_Duty_Cycle_Percent (chip o) (pin o) percent)]).
Proof.
  assert (In_range : Num.is_percentage percent = true ->
            duty_cycle percent (o, w) =
            sysfs (PWM_Duty_Cycle_Percent (chip o) (pin o) percent)
                  (with_percent percent o, w)).
  { intros E. unfold duty_cycle. now rewrite E. }
  assert (Out : Num.is_percentage percent = false ->
            duty_cycle percent (o, w) =
            (inl (DutyCycleOutOfBounds percent), (o, w))).
  { intros E. unfold duty_cycle. now rewrite E. }
  split; [split|split; [|split]].
  - intros (p & s & H). apply not_true_is_false. intros E.
    rewrite In_range, sysfs_run in H by assumption.
    destruct (perform _ (device w)) as [[[n|k]|] d]; discriminate.
  - intros H. exists percent, (o, w). now apply Out.
  - apply not_percentage_iff.
  - exact Out.
  - intros H. rewrite In_range, sysfs_run by assumption.
    destruct (perform _ (device w)) as [[f|] d]; now cbn.
Qed.

(** C10.  For a percentage in range the attribute
    [self.duty_cycle_percent] is assigned before the call: when the call
    fails, the exception goes up and the object already holds the new
    percentage. *)
Theorem duty_cycle_stores_before_writing percent o w f d :
  Num.le (Integer 0) percent = true /\ Num.le percent (Integer 100) = true ->
  perform (PWM_Duty_Cycle_Percent (chip o) (pin o) percent) (device w)
    = (Some f, d) ->
  duty_cycle percent (o, w) =
  (inl (exn_of f),
   (with_percent percent o,
    logged (Call (PWM_Duty_Cycle_Percent (chip o) (pin o) percent)) d w)).
Proof.
  intros (H0 & H100) Hf. unfold duty_cycle, Num.is_percentage.
  rewrite H0, H100. cbn [andb].
  unfold Py.bind, set_duty_cycle_percent, Py.modify, self. cbn [fst snd].
  rewrite sysfs_run. cbn [chip pin with_percent duty_cycle_percent].
  now rewrite Hf.
Qed.

(** [PWM.__init__] when every call returns: export, polarity, enable,
    frequency, in that order. *)
Lemma init_configures_in_order chip pin hz percent inv w d1 d2 d3 d4 :
  perform (PWM_Export chip pin) (device w) = (None, d1) ->
  perform (PWM_Polarity chip pin inv) d1 = (None, d2) ->
  perform (PWM_Enable chip pin) d2 = (None, d3) ->
  perform (PWM_Frequency chip pin hz) d3 = (None, d4) ->
  exists w',
    __init__ chip pin hz percent inv w
      = (inr (mkSelf chip pin hz percent inv), w') /\
    device w' = d4 /\
    log w' = log w ++ [Call (PWM_Export chip pin);
                       Call (PWM_Polarity chip pin inv);
                       Call (PWM_Enable chip pin);
                       Call (PWM_Frequency chip pin hz)].
Proof.
  intros H1 H2 H3 H4.
  destruct inv; unfold __init__, Py.bind, Py.try_except, sys;
    rewrite H1; cbn [device logged]; rewrite H2; cbn [device logged];
    rewrite H3; cbn [device logged]; rewrite H4;
    (eexists; split; [reflexivity|]; cbn; split; [reflexivity|];
     now rewrite <- !app_assoc).
Qed.

(** C3, at the busy export.  When [sysfs.PWM_Export] fails with errno 16 and
    the unexport and the second export return, [PWM.__init__] returns the
    object after exactly four events, the failed export, the advisory, the
    unexport and the export: no polarity is written, the channel is not
    enabled and no frequency is set. *)
Theorem init_busy_skips_configuration chip pin hz percent inv w d1 d2 d3 :
  perform (PWM_Export chip pin) (device w) = (Some (Errno 16), d1) ->
  perform (PWM_Unexport chip pin) d1 = (None, d2) ->
  perform (PWM_Export chip pin) d2 = (None, d3) ->
  exists w',
    __init__ chip pin hz percent inv w
      = (inr (mkSelf chip pin hz percent inv), w') /\
    device w' = d3 /\
    log w' = log w ++ [Call (PWM_Export chip pin);
                       Warn (PwmPinInUse pin);
                       Call (PWM_Unexport chip pin);
                       Call (PWM_Export chip pin)] /\
    ~ In (Call (PWM_Polarity chip pin inv)) (skipn (length (log w)) (log w')) /\
    ~ In (Call (PWM_Enable chip pin)) (skipn (length (log w)) (log w')) /\
    ~ In (Call (PWM_Frequency chip pin hz)) (skipn (length (log w)) (log w')).
Proof.
  intros H1 H2 H3. unfold __init__, Py.bind, Py.try_except, sys.
  rewrite H1. cbn [exn_of Z.eqb Pos.eqb]. unfold warn, Py.modify.
  cbn [device logged]. rewrite H2. cbn [device logged]. rewrite H3.
  eexists. split; [reflexivity|]. cbn [device log logged].
  split; [reflexivity|].
  assert (E : ((((log w ++ [Call (PWM_Export chip pin)]) ++
                 [Warn (PwmPinInUse pin)]) ++
                [Call (PWM_Unexport chip pin)]) ++
               [Call (PWM_Export chip pin)]) =
              log w ++ [Call (PWM_Export chip pin); Warn (PwmPinInUse pin);
                        Call (PWM_Unexport chip pin);
                        Call (PWM_Export chip pin)])
    by now rewrite <- !app_assoc.
  rewrite E. split; [reflexivity|].
  rewrite skipn_app, skipn_all, Nat.sub_diag. cbn [skipn app].
  repeat split; intros H; cbn in H;
    repeat (destruct H as [H|H]; [discriminate H|]); exact H.
Qed.

End Channel.

(** ** The ledger at its edges *)

Section LedgerEdges.

Context {board : Board}.

Lemma sys_returns c w d :
  perform c (device w) = (None, d) ->
  sys c w = (inr tt, logged (Call c) d w).
Proof. unfold sys. now intros ->. Qed.

Lemma sys_fails c w f d :
  perform c (device w) = (Some f, d) ->
  sys c w = (inl (exn_of f), logged (Call c) d w).
Proof. unfold sys. now intros ->. Qed.

Lemma lookup_pin_found c p w :
  get_gpio_pin (gpio_mode w) c = inr p -> lookup_pin c w = (inr p, w).
Proof. unfold lookup_pin. now intros ->. Qed.

Lemma setup_channel_present c d dir initial w :
  Dict.get c (exports w) = Some d ->
  setup_channel c dir initial w = (inl (RuntimeError (AlreadyConfigured c)), w).
Proof.
  intros H. unfold setup_channel, Py.bind, Py.get, Dict.mem. now rewrite H.
Qed.

Lemma setup_channel_absent c dir initial w :
  Dict.get c (exports w) = None ->
  setup_channel c dir initial w =
  (p <- lookup_pin c ;;
   export_retrying c p ;;
   sys (sysfs_direction p dir) ;;
   Py.modify (fun w => set_exports_field (Dict.set c dir (exports w)) w) ;;
   match dir, initial with
   | OUT, Some v => sys (sysfs_output p v)
   | _, _ => Py.ret tt
   end) w.
Proof.
  intros H. unfold setup_channel, Py.bind at 1, Py.get, Dict.mem.
  now rewrite H.
Qed.

Lemma export_retrying_returns c p w d :
  perform (sysfs_export p) (device w) = (None, d) ->
  export_retrying c p w = (inr tt, logged (Call (sysfs_export p)) d w).
Proof.
  intros H. unfold export_retrying, Py.try_except.
  now rewrite (sys_returns _ _ H).
Qed.

Lemma export_retrying_fails c p w f d :
  perform (sysfs_export p) (device w) = (Some f, d) ->
  f <> Errno 16 ->
  export_retrying c p w = (inl (exn_of f), logged (Call (sysfs_export p)) d w).
Proof.
  intros H N. unfold export_retrying, Py.try_except.
  rewrite (sys_fails _ _ H). destruct f as [n|k]; cbn; [|reflexivity].
  destruct (n =? 16) eqn:E; [|reflexivity].
  apply Z.eqb_eq in E. congruence.
Qed.

Lemma export_retrying_busy c p w d :
  perform (sysfs_export p) (device w) = (Some (Errno 16), d) ->
  export_retrying c p w =
  (Py.when (gpio_warnings w) (warn (ChannelInUse c)) ;;
   sys (sysfs_unexport p) ;;
   sys (sysfs_export p)) (logged (Call (sysfs_export p)) d w).
Proof.
  intros H. unfold export_retrying, Py.try_except.
  rewrite (sys_fails _ _ H). reflexivity.
Qed.

Lemma setup_one c dir initial w :
  gpio_mode w <> None ->
  setup (Chan c) dir initial None w = setup_channel c dir initial w.
Proof.
  intros M. destruct (gpio_mode w) as [m|] eqn:Em; [|contradiction].
  now rewrite (setup_set _ _ _ _ _ Em).
Qed.

(** *** More on the dictionary *)

Lemma dict_set_absent k v d :
  Dict.get k d = None -> Dict.set k v d = d ++ [(k, v)].
Proof.
  induction d as [|[k' v'] d IH]; cbn; [reflexivity|].
  destruct (channel_eqb k k'); [discriminate|]. intros H. now rewrite IH.
Qed.

Lemma dict_remove_absent k d : Dict.get k d = None -> Dict.remove k d = d.
Proof.
  unfold Dict.remove.
  induction d as [|[k' v'] d IH]; cbn; [reflexivity|].
  destruct (channel_eqb k k'); [discriminate|]. intros H. cbn.
  f_equal. now apply IH.
Qed.

Lemma dict_remove_set k v d :
  Dict.get k d = None -> Dict.remove k (Dict.set k v d) = d.
Proof.
  intros H. rewrite dict_set_absent by assumption.
  unfold Dict.remove. rewrite filter_app. cbn.
  rewrite channel_eqb_refl. cbn. rewrite app_nil_r.
  now apply (dict_remove_absent k d).
Qed.

(** *** More frames *)

Lemma frame_same_settings : frame same_settings.
Proof.
  split; unfold same_settings.
  - auto.
  - intros w1 w2 w3 (? & ?) (? & ?). split; congruence.
  - intros; now cbn.
Qed.

Lemma for_each_ext St A (f g : A -> Py.M St unit) l :
  Forall (fun x => forall s, f x s = g x s) l ->
  forall s, Py.for_each f l s = Py.for_each g l s.
Proof.
  induction 1 as [|x l Hx _ IH]; intros s; [reflexivity|].
  rewrite !for_each_cons, Hx. destruct (g x s) as [[e|[]] s']; auto.
Qed.

(** What a [setup_channel] that returns has done to the ledger. *)
Lemma setup_channel_ok c dir initial w w' :
  setup_channel c dir initial w = (inr tt, w') ->
  Dict.get c (exports w) = None /\
  exports w' = Dict.set c dir (exports w) /\ same_settings w w'.
Proof.
  intros H.
  destruct (Dict.get c (exports w)) as [d|] eqn:G.
  { rewrite setup_channel_present with (d := d) in H by assumption.
    discriminate. }
  rewrite setup_channel_absent in H by assumption.
  apply bind_ok in H as (p & w1 & E1 & H).
  apply (stable_lookup_pin frame_same_globals) in E1 as S1.
  apply bind_ok in H as ([] & w2 & E2 & H).
  apply (stable_export_retrying frame_same_globals) in E2 as S2.
  apply bind_ok in H as ([] & w3 & E3 & H).
  apply (stable_sys frame_same_globals) in E3 as S3.
  apply bind_ok in H as ([] & w4 & E4 & H). inversion E4; subst w4; clear E4.
  assert (S5 : same_globals
                 (set_exports_field (Dict.set c dir (exports w3)) w3) w').
  { destruct dir, initial;
      first [ eapply (stable_sys frame_same_globals); eassumption
            | eapply (stable_ret frame_same_globals); eassumption ]. }
  destruct S1 as (X1 & M1 & W1), S2 as (X2 & M2 & W2),
           S3 as (X3 & M3 & W3), S5 as (X5 & M5 & W5).
  cbn in X5, M5, W5. split; [reflexivity|]. split.
  - rewrite X5. congruence.
  - split; congruence.
Qed.

(** X5.  When [setup(channel, OUT, initial=v)] has exported the pin and
    written its direction and the write of the initial value fails, the
    failure goes up but the channel is in the ledger as an output: a second
    [setup] of it raises "already configured". *)
Theorem setup_initial_write_failure c v w p d1 d2 f d3 :
  gpio_mode w <> None ->
  Dict.get c (exports w) = None ->
  get_gpio_pin (gpio_mode w) c = inr p ->
  perform (sysfs_export p) (device w) = (None, d1) ->
  perform (sysfs_direction p OUT) d1 = (None, d2) ->
  perform (sysfs_output p v) d2 = (Some f, d3) ->
  exists w',
    setup (Chan c) OUT (Some v) None w = (inl (exn_of f), w') /\
    Dict.get c (exports w') = Some OUT /\
    forall dir initial,
      setup (Chan c) dir initial None w'
        = (inl (RuntimeError (AlreadyConfigured c)), w').
Proof.
  intros M A P E1 E2 E3.
  rewrite setup_one, setup_channel_absent by assumption.
  rewrite bind_run with (1 := lookup_pin_found _ _ P).
  rewrite bind_run with (1 := export_retrying_returns c _ _ E1).
  unfold Py.bind, Py.modify, sys. cbn [device logged].
  rewrite E2. cbn [device logged set_exports_field]. rewrite E3.
  eexists. split; [reflexivity|].
  assert (G : forall d l,
            Dict.get c (exports (mkWorld (gpio_warnings w) (gpio_mode w)
                                   (Dict.set c OUT (exports w)) d l))
            = Some OUT) by (intros; cbn; apply dict_get_set_same).
  split; [cbn; apply dict_get_set_same|].
  intros dir initial. rewrite setup_one by (cbn; assumption).
  apply setup_channel_present with (d := OUT). cbn.
  apply dict_get_set_same.
Qed.

(** X6.  For an input the initial value is ignored: [setup] with
    [direction = IN] does the same with and without [initial], for a
    channel and for any list. *)
Theorem setup_input_ignores_initial ch initial pud w :
  setup ch IN initial pud w = setup ch IN None pud w.
Proof.
  revert pud w.
  induction ch as [c|l IH] using chan_arg_nested_ind; intros pud w.
  - reflexivity.
  - destruct (gpio_mode w) as [m|] eqn:Em.
    + rewrite !(setup_set _ _ _ _ _ Em). unfold Py.bind.
      destruct (pull_notice pud w) as [[e|[]] w1]; [reflexivity|].
      apply for_each_ext. eapply Forall_impl; [|exact IH].
      intros a Ha s. apply Ha.
    + now rewrite !setup_unset.
Qed.

Lemma pull_notice_given pud w :
  pull_notice (Some pud) w = (inr tt, pull_advised w).
Proof.
  unfold pull_notice, pull_advised, Py.bind, Py.get.
  now destruct (gpio_warnings w).
Qed.

(** X7.  The pull-up/down argument only produces the advisory: with a
    numbering scheme set, [setup] with [pull_up_down] given does what
    [setup] without it does, started in the state where the advisory has
    been given if warnings are enabled; no call depends on its value. *)
Theorem setup_pull_is_only_an_advisory ch dir initial pud w :
  gpio_mode w <> None ->
  setup ch dir initial (Some pud) w = setup ch dir initial None (pull_advised w).
Proof.
  intros M. destruct (gpio_mode w) as [m|] eqn:Em; [|contradiction].
  assert (Em' : gpio_mode (pull_advised w) = Some m).
  { unfold pull_advised. now destruct (gpio_warnings w). }
  rewrite (setup_set _ _ _ _ _ Em), (setup_set _ _ _ _ _ Em').
  rewrite bind_run with (1 := pull_notice_given pud w).
  now rewrite bind_run with (a := tt) (s1 := pull_advised w).
Qed.

Lemma check_configured_run c dir w :
  _check_configured c (Some dir) w =
  (match Dict.get c (exports w) with
   | Some d =>
       if direction_eqb dir d then inr tt
       else inl (RuntimeError (ConfiguredFor c d))
   | None => inl (RuntimeError (NotConfigured c))
   end, w).
Proof.
  unfold _check_configured, Py.bind, Py.get, Py.raise, Py.ret.
  destruct (Dict.get c (exports w)) as [d|]; [|reflexivity].
  now destruct (direction_eqb dir d).
Qed.

(** X1.  [output] on a channel that has no ledger entry, or whose entry says
    input, raises the [RuntimeError] of [_check_configured]; no call is made
    and nothing changes. *)
Theorem output_refused c state w :
  Dict.get c (exports w) <> Some OUT ->
  output (Chan c) state w = (inl (not_an_output c w), w).
Proof.
  intros H. cbn [output]. unfold output_channel, not_an_output.
  apply bind_fail. rewrite check_configured_run.
  destruct (Dict.get c (exports w)) as [[|]|]; try reflexivity.
  now elim H.
Qed.

Lemma pull_notice_run pud w :
  pull_notice pud w =
  (inr tt, match pud with Some _ => pull_advised w | None => w end).
Proof.
  destruct pud as [q|]; [|reflexivity].
  unfold pull_notice, pull_advised, Py.bind, Py.get.
  now destruct (gpio_warnings w).
Qed.

(** X2.  [setup] of a channel that is in the ledger raises "already
    configured", whatever direction, initial value and pull-up/down are
    asked for; nothing is exported and the entry keeps its direction.  The
    pull-up/down block comes before the test: when the argument is given
    and warnings are enabled, its advisory is in the log when the exception
    is raised, and that is the only change. *)
Theorem setup_refuses_configured c d dir initial pud w :
  gpio_mode w <> None ->
  Dict.get c (exports w) = Some d ->
  setup (Chan c) dir initial pud w
    = (inl (RuntimeError (AlreadyConfigured c)),
       match pud with Some _ => pull_advised w | None => w end).
Proof.
  intros M H. destruct (gpio_mode w) as [m|] eqn:Em; [|contradiction].
  rewrite (setup_set _ _ _ _ _ Em).
  rewrite bind_run with (1 := pull_notice_run pud w).
  apply setup_channel_present with (d := d).
  destruct pud; [|assumption].
  unfold pull_advised. now destruct (gpio_warnings w).
Qed.

(** X3.  When the export fails with anything but errno 16, [setup] raises
    that failure after the one call: no unexport, no direction, no ledger
    entry. *)
Theorem setup_export_failure c dir initial w p f d :
  gpio_mode w <> None ->
  Dict.get c (exports w) = None ->
  get_gpio_pin (gpio_mode w) c = inr p ->
  perform (sysfs_export p) (device w) = (Some f, d) ->
  f <> Errno 16 ->
  setup (Chan c) dir initial None w
    = (inl (exn_of f), logged (Call (sysfs_export p)) d w).
Proof.
  intros M A P E N. rewrite setup_one, setup_channel_absent by assumption.
  rewrite bind_run with (1 := lookup_pin_found _ _ P).
  now rewrite bind_fail with (1 := export_retrying_fails c _ _ E N).
Qed.

(** X4.  When the export fails with errno 16, [setup] gives the advisory
    (when warnings are enabled), unexports, exports again and then goes on:
    the direction is written and the channel enters the ledger. *)
Theorem setup_busy_goes_on c dir w p d1 d2 d3 d4 :
  gpio_mode w <> None ->
  Dict.get c (exports w) = None ->
  get_gpio_pin (gpio_mode w) c = inr p ->
  perform (sysfs_export p) (device w) = (Some (Errno 16), d1) ->
  perform (sysfs_unexport p) d1 = (None, d2) ->
  perform (sysfs_export p) d2 = (None, d3) ->
  perform (sysfs_direction p dir) d3 = (None, d4) ->
  exists w',
    setup (Chan c) dir None None w = (inr tt, w') /\
    exports w' = Dict.set c dir (exports w) /\
    log w' = log w ++ Call (sysfs_export p) ::
               (if gpio_warnings w then [Warn (ChannelInUse c)] else []) ++
               [Call (sysfs_unexport p); Call (sysfs_export p);
                Call (sysfs_direction p dir)].
Proof.
  intros M A P E1 E2 E3 E4.
  rewrite setup_one, setup_channel_absent by assumption.
  rewrite bind_run with (1 := lookup_pin_found _ _ P).
  unfold Py.bind at 1. rewrite (export_retrying_busy c _ _ E1).
  unfold Py.bind at 1.
  destruct (gpio_warnings w) eqn:W; cbn [Py.when logged gpio_warnings];
    rewrite ?W; cbn [Py.when Py.ret warn Py.modify];
    unfold Py.bind, sys; cbn [device logged];
    rewrite E2; cbn [device logged]; rewrite E3; cbn [device logged];
    rewrite E4; destruct dir; cbn;
    (eexists; split; [reflexivity|]; cbn; split; [reflexivity|];
     now rewrite <- !app_assoc).
Qed.

(** *** What the ledger operations do to the ledger, return or raise *)

Lemma cleanup_channel_effect c w r w' :
  cleanup_channel c w = (r, w') ->
  same_settings w w' /\
  (exports w' = exports w \/ exports w' = Dict.remove c (exports w)).
Proof.
  unfold cleanup_channel. intros H.
  assert (Early : forall w1, same_globals w w1 ->
            same_settings w w1 /\
            (exports w1 = exports w \/
             exports w1 = Dict.remove c (exports w))).
  { intros w1 (X & M & W). split; [split; assumption|now left]. }
  apply bind_cases in H as [(e & E0 & _)|([] & w0 & E0 & H)];
    apply check_configured_state in E0 as ->;
    [apply Early, (frame_refl frame_same_globals)|].
  apply bind_cases in H as [(e & E1 & _)|(p & w1 & E1 & H)];
    apply (stable_lookup_pin frame_same_globals) in E1 as S1;
    [now apply Early|].
  apply bind_cases in H as [(e & E2 & _)|([] & w2 & E2 & H)];
    apply (stable_sys frame_same_globals) in E2 as S2;
    pose proof (frame_trans frame_same_globals _ _ _ S1 S2) as S12;
    [now apply Early|].
  apply bind_cases in H as [(e & E3 & _)|([] & w3 & E3 & H)];
    apply (stable_sys frame_same_globals) in E3 as S3;
    pose proof (frame_trans frame_same_globals _ _ _ S12 S3) as S13;
    [now apply Early|].
  apply bind_cases in H as [(e & E4 & _)|(w4 & w5 & E4 & H)];
    [discriminate E4|]. inversion E4; subst w4 w5; clear E4.
  destruct (Dict.get c (exports w3)).
  - inversion H. destruct S13 as (X3 & M3 & W3). cbn.
    split; [split; assumption|]. right. now rewrite X3.
  - inversion H. subst. now apply Early.
Qed.

Lemma cleanup_arg_stable R ch :
  frame R ->
  (forall c, stable R (cleanup_channel c)) ->
  stable R (cleanup_arg ch).
Proof.
  intros HR Hc. induction ch as [c|l IH] using chan_arg_nested_ind.
  - apply Hc.
  - cbn [cleanup_arg]. now apply (stable_for_each HR).
Qed.

Lemma cleanup_channel_settings c : stable same_settings (cleanup_channel c).
Proof. intros w r w' H. now apply cleanup_channel_effect in H. Qed.

(** X9.  When [cleanup()] raises, because the release of some channel
    raised, the numbering scheme is not cleared and the warnings setting is
    not reset; channels that were not in the ledger are still not in it. *)
Theorem cleanup_all_failure_keeps_settings w e w' :
  cleanup None w = (inl e, w') ->
  same_settings w w' /\ adds_no_entry w w'.
Proof.
  cbn [cleanup]. intros H.
  apply bind_cases in H as [(e0 & E0 & _)|(w0 & w1 & E0 & H)];
    [discriminate E0|]. inversion E0; subst w0 w1; clear E0.
  apply bind_cases in H as [(e1 & E1 & _)|([] & w1 & E1 & H)].
  - split.
    + eapply (cleanup_arg_stable _ frame_same_settings); eauto.
      apply cleanup_channel_settings.
    + eapply cleanup_arg_adds_none; eauto.
  - discriminate H.
Qed.

(** X10.  A [cleanup()] that returns has released the channels in the order
    in which they entered the ledger: for each channel in turn,
    [event.cleanup] and then [sysfs.unexport] on its pin, and nothing
    else. *)
Theorem cleanup_all_releases_in_order w w' :
  cleanup None w = (inr tt, w') ->
  exists ps,
    Forall2 (fun c p => get_gpio_pin (gpio_mode w) c = inr p)
            (Dict.keys (exports w)) ps /\
    log w' = log w ++
      flat_map (fun p => [Call (event_cleanup p); Call (sysfs_unexport p)]) ps.
Proof.
  cbn [cleanup]. intros H.
  apply bind_ok in H as (w0 & w1 & E0 & H). inversion E0; subst w0 w1.
  apply bind_ok in H as ([] & w1 & E1 & H).
  cbn [cleanup_arg] in E1. apply cleanup_keys_log in E1 as (ps & F & L).
  exists ps. split; [assumption|]. inversion H. cbn. exact L.
Qed.

(** X11.  [setup] then [cleanup] of a channel gives the ledger back: when
    both return, the ledger is the one [setup] started from, the other
    entries in their order. *)
Theorem setup_then_cleanup_restores c dir initial pud w w1 w2 :
  setup (Chan c) dir initial pud w = (inr tt, w1) ->
  cleanup (Some (Chan c)) w1 = (inr tt, w2) ->
  exports w2 = exports w.
Proof.
  intros S C.
  destruct (gpio_mode w) as [m|] eqn:Em;
    [|rewrite setup_unset in S by assumption; discriminate].
  rewrite (setup_set _ _ _ _ _ Em) in S.
  apply bind_ok in S as ([] & w0 & E0 & S).
  apply (stable_pull_notice frame_same_globals) in E0 as (X0 & _).
  apply setup_channel_ok in S as (A & X1 & _).
  cbn [cleanup cleanup_arg] in C.
  apply cleanup_channel_ok in C as (p & d1 & d2 & _ & _ & _ & ->).
  cbn. rewrite X1, <- X0. now apply dict_remove_set.
Qed.

Lemma check_input_refused c w :
  is_input c w = false ->
  _check_configured c (Some IN) w = (inl (not_an_input c w), w).
Proof.
  intros H. rewrite check_input_run, H. unfold not_an_input.
  now destruct (Dict.get c (exports w)).
Qed.

(** X12.  Edge detection is for inputs only: on a channel that is not in
    the ledger as an input, [add_event_detect], [add_event_callback] and
    [remove_event_detect] raise the [RuntimeError] of [_check_configured]
    before anything else: no advisory about the bouncetime, no call to the
    edge engine, no change. *)
Theorem edge_registration_refused c w :
  is_input c w = false ->
  (forall t cb b, add_event_detect c t cb b w = (inl (not_an_input c w), w)) /\
  (forall cb b, add_event_callback c cb b w = (inl (not_an_input c w), w)) /\
  remove_event_detect c w = (inl (not_an_input c w), w).
Proof.
  intros H. repeat split; intros;
    apply bind_fail; now apply check_input_refused.
Qed.

End LedgerEdges.

(** ** The PWM channel at its edges *)

Section ChannelEdges.

Context {board : Board}.

Import PWM.

Lemma sysfs_result c o w r s :
  sysfs c (o, w) = (r, s) ->
  fst s = o /\ log (snd s) = log w ++ [Call c].
Proof.
  rewrite sysfs_run.
  destruct (perform c (device w)) as [[f|] d]; intros H; inversion H; now cbn.
Qed.

Lemma sysfs_bind_ok c (k : unit -> method unit) o w s :
  Py.bind (sysfs c) k (o, w) = (inr tt, s) ->
  exists w1, log w1 = log w ++ [Call c] /\ k tt (o, w1) = (inr tt, s).
Proof.
  intros H. apply bind_ok in H as ([] & [o1 w1] & E & H).
  apply sysfs_result in E as (E1 & E2). cbn in E1, E2. subst o1.
  now exists w1.
Qed.

Lemma pwm_polarity_ok o w s :
  pwm_polarity (o, w) = (inr tt, s) ->
  fst s = o /\
  log (snd s) = log w ++ [Call (PWM_Disable (chip o) (pin o));
                          Call (PWM_Polarity (chip o) (pin o)
                                  (negb (invert_polarity o)));
                          Call (PWM_Enable (chip o) (pin o))].
Proof.
  unfold pwm_polarity, Py.bind at 1, self. cbn [fst snd]. intros H.
  apply sysfs_bind_ok in H as (w1 & L1 & H).
  apply sysfs_bind_ok in H as (w2 & L2 & H).
  destruct s as [o3 w3]. apply sysfs_result in H as (E & L3).
  cbn in E, L3 |- *. split; [assumption|].
  rewrite L3, L2, L1. now rewrite <- !app_assoc.
Qed.

(** X13.  [pwm_polarity] writes the opposite of the polarity the object was
    constructed with and does not store what it wrote: a second call writes
    the same polarity again, it does not go back.  Each call is disable,
    polarity, enable, in that order. *)
Theorem pwm_polarity_does_not_toggle o w s :
  Py.bind pwm_polarity (fun _ => pwm_polarity) (o, w) = (inr tt, s) ->
  fst s = o /\
  log (snd s) =
    log w ++ [Call (PWM_Disable (chip o) (pin o));
              Call (PWM_Polarity (chip o) (pin o) (negb (invert_polarity o)));
              Call (PWM_Enable (chip o) (pin o));
              Call (PWM_Disable (chip o) (pin o));
              Call (PWM_Polarity (chip o) (pin o) (negb (invert_polarity o)));
              Call (PWM_Enable (chip o) (pin o))].
Proof.
  intros H. apply bind_ok in H as ([] & [o1 w1] & E1 & E2).
  apply pwm_polarity_ok in E1 as (O1 & L1). cbn in O1, L1. subst o1.
  apply pwm_polarity_ok in E2 as (O2 & L2).
  split; [assumption|]. rewrite L2, L1. now rewrite <- app_assoc.
Qed.

Lemma method_keeps_object (m : method unit) :
  (forall o w, fst (snd (m (o, w))) = o) ->
  forall (k : unit -> method unit),
    (forall o w, fst (snd (k tt (o, w))) = o) ->
    forall o w, fst (snd (Py.bind m k (o, w))) = o.
Proof.
  intros Hm k Hk o w. unfold Py.bind.
  specialize (Hm o w). destruct (m (o, w)) as [[e|[]] [o1 w1]]; cbn in *.
  - assumption.
  - subst o1. apply Hk.
Qed.

Lemma sysfs_keeps_object c o w : fst (snd (sysfs c (o, w))) = o.
Proof.
  rewrite sysfs_run. now destruct (perform c (device w)) as [[f|] d].
Qed.

(** X14.  [start_pwm], [stop_pwm], [pwm_polarity] and [pwm_close] assign no
    attribute: whatever the surface answers, the object afterwards is the
    object before.  So [stop_pwm] keeps the percentage that [start_pwm]
    writes, and [pwm_close] leaves an object whose methods still make their
    calls. *)
Theorem methods_keep_the_object o w :
  fst (snd (start_pwm (o, w))) = o /\
  fst (snd (stop_pwm (o, w))) = o /\
  fst (snd (pwm_polarity (o, w))) = o /\
  fst (snd (pwm_close (o, w))) = o /\
  log (snd (snd (Py.bind stop_pwm (fun _ => start_pwm) (o, w)))) =
    log w ++ Call (PWM_Duty_Cycle_Percent (chip o) (pin o) (Integer 0)) ::
      (if returned (PWM_Duty_Cycle_Percent (chip o) (pin o) (Integer 0)) (device w)
       then [Call (PWM_Duty_Cycle_Percent (chip o) (pin o)
                     (duty_cycle_percent o))]
       else []).
Proof.
  repeat split.
  - apply sysfs_keeps_object.
  - apply sysfs_keeps_object.
  - unfold pwm_polarity, Py.bind at 1, self. cbn [fst snd].
    apply method_keeps_object; [intros; apply sysfs_keeps_object|].
    intros o' w'.
    apply method_keeps_object; intros; apply sysfs_keeps_object.
  - apply sysfs_keeps_object.
  - unfold stop_pwm, start_pwm, Py.bind, self, returned. cbn [fst snd].
    rewrite sysfs_run.
    destruct (perform _ (device w)) as [[f|] d]; cbn [fst snd];
      [reflexivity|].
    rewrite sysfs_run. cbn [device logged].
    destruct (perform _ d) as [[f2|] d2]; cbn; now rewrite <- app_assoc.
Qed.

Lemma order_admissible o P D P0 a :
  Attr.period a = P0 -> Attr.admissible a -> D <= P ->
  Attr.admissible (Attr.write (first_write o P D P0) a) /\
  Attr.admissible
    (Attr.write (second_write o P D P0) (Attr.write (first_write o P D P0) a))
  /\ Attr.period
       (Attr.write (second_write o P D P0)
          (Attr.write (first_write o P D P0) a)) = P.
Proof.
  destruct a as [p0 d0]. unfold Attr.admissible, first_write, second_write.
  cbn. intros -> Ha HDP. destruct (P >? P0) eqn:G; cbn.
  - apply Z.gtb_lt in G. lia.
  - assert (P <= P0) by (rewrite Z.gtb_ltb in G; apply Z.ltb_ge in G; lia).
    lia.
Qed.

(** X15.  A sequence of [change_frequency] calls, rising or falling in any
    order, never writes a duty-cycle length above the period: if the
    attributes start with the period of the stored frequency and a
    duty-cycle length within it, and the stored percentage gives a length
    within the period at each frequency of the sequence, then every write
    of the whole run, up to its end or to the first call that raises,
    leaves attributes the surface accepts. *)
Theorem change_frequency_sequence_safe hzs : forall o w a P0,
  Forall (fits (duty_cycle_percent o)) hzs ->
  Num.period_ns (frequency o) = inr P0 ->
  Attr.period a = P0 ->
  Attr.admissible a ->
  exists evs,
    log (snd (snd (Py.for_each change_frequency hzs (o, w)))) = log w ++ evs /\
    writes_admissible evs a.
Proof.
  induction hzs as [|hz hzs IH]; intros o w a P0 F HP0 Ha Hadm.
  - exists []. cbn. now rewrite app_nil_r.
  - inversion F as [|? ? (P & D & HP & HD & HDP) F']; subst.
    destruct (@order_admissible o P D (Attr.period a) a eq_refl Hadm HDP)
      as (A1 & A2 & A3).
    rewrite for_each_cons.
    rewrite change_frequency_run with (P := P) (D := D) (P0 := Attr.period a)
      by assumption.
    destruct (perform (first_write o P D (Attr.period a)) (device w))
      as [[f1|] d1].
    { exists [Call (first_write o P D (Attr.period a))]. cbn. auto. }
    destruct (perform (second_write o P D (Attr.period a)) d1) as [[f2|] d2].
    { exists [Call (first_write o P D (Attr.period a));
              Call (second_write o P D (Attr.period a))].
      cbn. rewrite <- app_assoc. auto. }
    destruct (IH (with_frequency hz o)
                (logged (Call (second_write o P D (Attr.period a))) d2
                   (logged (Call (first_write o P D (Attr.period a))) d1 w))
                (Attr.write (second_write o P D (Attr.period a))
                   (Attr.write (first_write o P D (Attr.period a)) a))
                P F' HP A3 A2) as (evs & L & S).
    exists (Call (first_write o P D (Attr.period a)) ::
            Call (second_write o P D (Attr.period a)) :: evs).
    split.
    + rewrite L. cbn. now rewrite <- !app_assoc.
    + cbn. auto.
Qed.

Lemma sf_value_not_zero s m e : Qeq_bool (Num.sf_value s m e) 0 = false.
Proof. destruct s, e; reflexivity. Qed.

Lemma period_ns_zero hz :
  Num.eq hz (Integer 0) = true -> Num.period_ns hz = inl ZeroDivisionError.
Proof.
  unfold Num.eq, Num.le, Num.period_ns, Num.truediv.
  destruct hz as [n|x]; cbn [Num.ext_of Num.ext_leb].
  - unfold Qle_bool. cbn. rewrite !Z.mul_1_r. intros H.
    apply andb_true_iff in H as (H1 & H2).
    apply Z.leb_le in H1, H2. unfold Num.int_truediv.
    replace (n =? 0) with true by (symmetry; apply Z.eqb_eq; lia).
    reflexivity.
  - unfold Num.to_float, Num.float_is_zero.
    change (Num.float_of_int 1) with (@inr exn float 1%float).
    destruct (Prim2SF x) as [s| | |s m e]; cbn; try discriminate;
      try reflexivity.
    + destruct s; discriminate.
    + intros H. apply andb_true_iff in H as (H1 & H2).
      assert (E : Qeq_bool (Num.sf_value s m e) 0 = true).
      { apply Qeq_bool_iff. apply Qle_antisym; now apply Qle_bool_iff. }
      now rewrite sf_value_not_zero in E.
Qed.

(** X16.  A new frequency equal to zero, the [int] 0 or a [float] zero of
    either sign, raises [ZeroDivisionError] before anything is written or
    stored. *)
Theorem change_frequency_zero hz o w :
  Num.eq hz (Integer 0) = true ->
  change_frequency hz (o, w) = (inl ZeroDivisionError, (o, w)).
Proof.
  intros H. apply period_ns_zero in H.
  unfold change_frequency, Py.bind, self, Py.eval.
  cbn [fst snd]. now rewrite H.
Qed.

(** X17.  When the export fails with anything but errno 16, [PWM.__init__]
    raises that failure after the one call: no advisory, no unexport, no
    object. *)
Theorem init_export_failure chip pin hz percent inv w f d :
  perform (PWM_Export chip pin) (device w) = (Some f, d) ->
  f <> Errno 16 ->
  __init__ chip pin hz percent inv w
    = (inl (exn_of f), logged (Call (PWM_Export chip pin)) d w).
Proof.
  intros H N. unfold __init__, Py.bind, Py.try_except, sys. rewrite H.
  destruct f as [n|k]; cbn; [|reflexivity].
  destruct (n =? 16) eqn:E; [|reflexivity].
  apply Z.eqb_eq in E. congruence.
Qed.

(** X18.  The handler of [PWM.__init__] does not look at which call failed:
    errno 16 from the enable call, after the export and the polarity went
    through, is handled like a busy export, with the advisory, an unexport
    and an export, and the constructor returns the object without setting
    the frequency. *)
Theorem init_busy_at_enable chip pin hz percent inv w d1 d2 d3 d4 d5 :
  perform (PWM_Export chip pin) (device w) = (None, d1) ->
  perform (PWM_Polarity chip pin inv) d1 = (None, d2) ->
  perform (PWM_Enable chip pin) d2 = (Some (Errno 16), d3) ->
  perform (PWM_Unexport chip pin) d3 = (None, d4) ->
  perform (PWM_Export chip pin) d4 = (None, d5) ->
  exists w',
    __init__ chip pin hz percent inv w
      = (inr (mkSelf chip pin hz percent inv), w') /\
    device w' = d5 /\
    log w' = log w ++ [Call (PWM_Export chip pin);
                       Call (PWM_Polarity chip pin inv);
                       Call (PWM_Enable chip pin);
                       Warn (PwmPinInUse pin);
                       Call (PWM_Unexport chip pin);
                       Call (PWM_Export chip pin)].
Proof.
  intros H1 H2 H3 H4 H5.
  destruct inv; unfold __init__, Py.bind, Py.try_except, sys;
    rewrite H1; cbn [device logged]; rewrite H2; cbn [device logged];
    rewrite H3; cbn [exn_of Z.eqb Pos.eqb]; unfold warn, Py.modify;
    cbn [device logged]; rewrite H4; cbn [device logged]; rewrite H5;
    (eexists; split; [reflexivity|]; cbn; split; [reflexivity|];
     now rewrite <- !app_assoc).
Qed.

End ChannelEdges.

(** ** Readings and LEDs *)

Section ReadingEdges.

Context {board : Board} {readings : Readings board}.

Lemma same_but_device_refl w : same_but_device w w.
Proof. repeat split. Qed.

Lemma ask_cases r w v w' :
  ask r w = (v, w') ->
  exists x d, observe r (device w) = (x, d) /\ w' = with_device d w /\
    v = match x with inr y => inr y | inl f => inl (exn_of f) end.
Proof.
  unfold ask. destruct (observe r (device w)) as [[f|y] d]; intros H;
    inversion H; eauto.
Qed.

Lemma lookup_pin_cases c w r w' :
  lookup_pin c w = (r, w') ->
  w' = w /\
  r = match get_gpio_pin (gpio_mode w) c with
      | inr p => inr p
      | inl f => inl (exn_of f)
      end.
Proof.
  unfold lookup_pin. destruct (get_gpio_pin (gpio_mode w) c); intros H;
    inversion H; auto.
Qed.

Lemma input_same_but_device c w : same_but_device w (snd (input c w)).
Proof.
  destruct (input c w) as [v w'] eqn:H. cbn [snd]. unfold input in H.
  apply bind_cases in H as [(e & E0 & _)|([] & w0 & E0 & H)];
    apply check_configured_state in E0 as ->;
    [apply same_but_device_refl|].
  apply bind_cases in H as [(e & E1 & _)|(p & w1 & E1 & H)];
    apply lookup_pin_cases in E1 as (-> & _);
    [apply same_but_device_refl|].
  apply ask_cases in H as (x & d & _ & -> & _). repeat split.
Qed.

(** X19.  [input] reads a channel configured in either direction, an output
    as well as an input; on a channel with no ledger entry it raises "not
    configured" without reading; and it changes neither the ledger nor the
    settings. *)
Theorem input_reads_either_direction c w :
  (Dict.get c (exports w) = None ->
   input c w = (inl (RuntimeError (NotConfigured c)), w)) /\
  (forall d p,
     Dict.get c (exports w) = Some d ->
     get_gpio_pin (gpio_mode w) c = inr p ->
     input c w = ask (sysfs_input p) w) /\
  same_but_device w (snd (input c w)).
Proof.
  split; [|split].
  - intros H. apply bind_fail. now apply check_configured_absent.
  - intros d p H P. unfold input.
    rewrite bind_run with (a := tt) (s1 := w).
    + now rewrite bind_run with (1 := lookup_pin_found _ _ P).
    + unfold _check_configured, Py.bind, Py.get. now rewrite H.
  - apply input_same_but_device.
Qed.

(** X20.  What [wait_for_edge] returns is the channel it was given, not the
    pin, when the edge engine returned anything but [None], and [None] when
    the engine returned [None] (the timeout); it returns only for a channel
    configured as input, and leaves ledger, settings and log as they
    were. *)
Theorem wait_for_edge_gives_channel c t timeout w r w' :
  wait_for_edge c t timeout w = (inr r, w') ->
  is_input c w = true /\
  same_but_device w w' /\
  exists p v,
    get_gpio_pin (gpio_mode w) c = inr p /\
    observe (event_blocking_wait_for_edge p t timeout) (device w)
      = (inr v, device w') /\
    r = match v with PyNone => None | _ => Some c end.
Proof.
  unfold wait_for_edge. intros H.
  apply bind_ok in H as ([] & w0 & E0 & H).
  rewrite check_input_run in E0.
  destruct (is_input c w) eqn:I.
  2: { destruct (Dict.get c (exports w)); discriminate. }
  inversion E0; subst w0; clear E0.
  apply bind_ok in H as (p & w1 & E1 & H).
  apply lookup_pin_cases in E1 as (-> & E1).
  destruct (get_gpio_pin (gpio_mode w) c) as [f|p'] eqn:P; [discriminate|].
  inversion E1; subst p'; clear E1.
  apply bind_ok in H as (v & w2 & E2 & H).
  apply ask_cases in E2 as (x & d & O & -> & V).
  destruct x as [f|y]; [discriminate|]. inversion V; subst y; clear V.
  split; [reflexivity|].
  assert (E : w' = with_device d w /\
              r = match v with PyNone => None | _ => Some c end).
  { destruct v; inversion H; auto. }
  destruct E as (-> & ->). split; [repeat split|].
  exists p, v. cbn. auto.
Qed.

(** X21.  On a channel that is not in the ledger as an input,
    [wait_for_edge] and [event_detected] raise the [RuntimeError] of
    [_check_configured] and read nothing. *)
Theorem edge_readings_refused c w :
  is_input c w = false ->
  (forall t timeout,
     wait_for_edge c t timeout w = (inl (not_an_input c w), w)) /\
  event_detected c w = (inl (not_an_input c w), w).
Proof.
  intros H. split; intros; apply bind_fail; now apply check_input_refused.
Qed.

Lemma led_arg_nested_ind (P : led_arg -> Prop) :
  (forall l, P (Led l)) ->
  (forall ls, Forall P ls -> P (LedList ls)) ->
  forall a, P a.
Proof.
  intros Hc Hl.
  exact (fix rec (a : led_arg) : P a :=
           match a with
           | Led l => Hc l
           | LedList ls =>
               Hl ls ((fix all (ls : list led_arg) : Forall P ls :=
                         match ls with
                         | [] => Forall_nil P
                         | x :: r => Forall_cons x (rec x) (all r)
                         end) ls)
           end).
Qed.

Lemma with_device_same w : with_device (device w) w = w.
Proof. now destruct w. Qed.

Lemma switch_leds_app l1 l2 state d :
  switch_leds (l1 ++ l2) state d =
  match switch_leds l1 state d with
  | (None, d') => switch_leds l2 state d'
  | (Some f, d') => (Some f, d')
  end.
Proof.
  revert d. induction l1 as [|x l1 IH]; intros d; cbn; [reflexivity|].
  destruct (set_led x state d) as [[f|] d']; [reflexivity|apply IH].
Qed.

Lemma passed_through_moved r d w :
  passed_through r (with_device d w) = passed_through r w.
Proof. now destruct r as [[f|] d']. Qed.

(** X22.  [setled] is a pass-through: for a LED, a list or a list of lists it
    calls [sysfs.setled] on the LEDs from left to right until one fails,
    returns when all have returned and raises the first failure otherwise.
    It looks at no numbering scheme and at no ledger entry, and it changes
    nothing but the surface. *)
Theorem setled_passes_through l state w :
  setled l state w
    = passed_through (switch_leds (leds_of l) state (device w)) w.
Proof.
  revert w. induction l as [x|ls IH] using led_arg_nested_ind; intros w.
  - cbn. unfold setled_one.
    now destruct (set_led x state (device w)) as [[f|] d].
  - cbn [setled leds_of]. revert w.
    induction IH as [|a ls Ha _ IHls]; intros w.
    + cbn. now rewrite with_device_same.
    + rewrite for_each_cons. cbn [flat_map]. rewrite switch_leds_app, Ha.
      destruct (switch_leds (leds_of a) state (device w)) as [[f|] d];
        [reflexivity|].
      cbn [passed_through]. rewrite IHls. cbn [device with_device].
      apply passed_through_moved.
Qed.

End ReadingEdges.

(** ** Runs on the playback board *)

Section Runs.

#[local] Existing Instance playback.



(** C2, the claim's number.  [PWM(0, 0, 1000, 50)] and then
    [change_frequency(500)], every call returning: the period written is
    2,000,000 ns and the duty-cycle length written is 1,000,000 ns, not
    250,000,000 ns. *)
Lemma change_frequency_500_writes_1000000 :
  exists o w,
    PWM.__init__ 0 0 (Integer 1000) (Integer 50) false (fresh []) = (inr o, w) /\
    calls_of (log (snd (snd (PWM.change_frequency (Integer 500) (o, w))))) =
      [PWM_Export 0 0; PWM_Polarity 0 0 false; PWM_Enable 0 0;
       PWM_Frequency 0 0 (Integer 1000);
       PWM_Period 0 0 2000000; PWM_Duty_Cycle 0 0 1000000] /\
    ~ In (PWM_Duty_Cycle 0 0 250000000)
         (calls_of (log (snd (snd (PWM.change_frequency (Integer 500) (o, w)))))).
Proof.
  eexists. eexists. split; [reflexivity|].
  split; [vm_compute; reflexivity|].
  intros H. vm_compute in H.
  repeat (destruct H as [H|H]; [discriminate H|]). exact H.
Qed.

(** C3 at [PWM(0, 0, 1000, 50)] on a channel that is already exported. *)
Lemma init_busy_skips_configuration_witness :
  exists w',
    PWM.__init__ 0 0 (Integer 1000) (Integer 50) false (fresh [Some (Errno 16)])
      = (inr pwm_1000_50, w') /\
    log w' = [Call (PWM_Export 0 0); Warn (PwmPinInUse 0);
              Call (PWM_Unexport 0 0); Call (PWM_Export 0 0)].
Proof.
  destruct (@init_busy_skips_configuration playback 0 0 (Integer 1000) (Integer 50) false
              (fresh [Some (Errno 16)]) [] [] []
              eq_refl eq_refl eq_refl) as (w' & E & _ & L & _).
  exists w'. split; [exact E|exact L].
Defined.

(** C4 when the second write is refused: the frequency is still 1000. *)
Lemma change_frequency_commits_last_witness :
  fst (PWM.change_frequency (Integer 500)
         (pwm_1000_50, fresh [None; Some (Errno 22)])) = inl (OSError 22) /\
  fst (snd (PWM.change_frequency (Integer 500)
              (pwm_1000_50, fresh [None; Some (Errno 22)]))) = pwm_1000_50.
Proof.
  split; [reflexivity|].
  apply (proj1 (@change_frequency_commits_last playback (Integer 500) pwm_1000_50
                  (fresh [None; Some (Errno 22)])) (OSError 22)).
  reflexivity.
Defined.

(** C5 at 150 %. *)
Lemma duty_cycle_range_check_witness :
  PWM.duty_cycle (Integer 150) (pwm_1000_50, fresh []) =
  (inl (DutyCycleOutOfBounds (Integer 150)), (pwm_1000_50, fresh [])).
Proof.
  apply (proj1 (proj2 (proj2 (@duty_cycle_range_check playback (Integer 150)
                                pwm_1000_50 (fresh []))))).
  reflexivity.
Defined.

(** C5, the claim's condition.  [duty_cycle(float('nan'))] raises the
    out-of-bounds exception, although NaN is neither below 0 nor above
    100. *)
Lemma duty_cycle_nan_is_out_of_bounds :
  PWM.duty_cycle (Floating nan) (pwm_1000_50, fresh []) =
    (inl (DutyCycleOutOfBounds (Floating nan)), (pwm_1000_50, fresh [])) /\
  Num.lt (Floating nan) (Integer 0) = false /\
  Num.lt (Integer 100) (Floating nan) = false.
Proof. repeat split. Qed.

(** C10 at 75 % when the surface refuses the write. *)
Lemma duty_cycle_stores_before_writing_witness :
  PWM.duty_cycle (Integer 75) (pwm_1000_50, fresh [Some (Errno 22)]) =
  (inl (OSError 22),
   (PWM.with_percent (Integer 75) pwm_1000_50,
    logged (Call (PWM_Duty_Cycle_Percent 0 0 (Integer 75))) [] (fresh [Some (Errno 22)]))).
Proof.
  apply (@duty_cycle_stores_before_writing playback (Integer 75) pwm_1000_50
           (fresh [Some (Errno 22)]) (Errno 22) []).
  - split; reflexivity.
  - reflexivity.
Defined.

(** C6: [setup] before and after [setmode]. *)
Lemma setup_needs_mode_then_satisfies_check_witness :
  setup (Chan (Number 12)) IN None None (fresh [])
    = (inl (RuntimeError ModeNotSet), fresh []) /\
  _check_configured (Number 12) (Some IN) input_12 = (inr tt, input_12).
Proof.
  split.
  - apply (proj1 (@setup_needs_mode_then_satisfies_check playback)).
    reflexivity.
  - apply (proj2 (@setup_needs_mode_then_satisfies_check playback)
             (Number 12) IN None None (board_mode [])).
    reflexivity.
Defined.

(** C7: [cleanup(12)] before and after [setup(12, GPIO.IN)], and
    [cleanup()]. *)
Lemma cleanup_releases_witness :
  cleanup (Some (Chan (Number 12))) (board_mode [])
    = (inl (RuntimeError (NotConfigured (Number 12))), board_mode []) /\
  Dict.get (Number 12) (exports (snd (cleanup (Some (Chan (Number 12))) input_12))) = None /\
  gpio_mode (snd (cleanup None input_12_quiet)) = None /\
  gpio_warnings (snd (cleanup None input_12_quiet)) = true.
Proof.
  destruct (@cleanup_releases playback) as (A & B & C).
  split; [apply A; reflexivity|].
  split.
  - destruct (B (Number 12) input_12 (snd (cleanup (Some (Chan (Number 12))) input_12))
                eq_refl) as (p & d1 & _ & _ & _ & _ & _ & G).
    exact G.
  - destruct (C input_12_quiet (snd (cleanup None input_12_quiet)) eq_refl)
      as (_ & M & W & _).
    split; assumption.
Defined.


(** C9, the claim's validation and advisory.  On channel 12, an input,
    a bouncetime of -200 is accepted by [add_event_detect] and by
    [add_event_callback]; with warnings disabled the registration leaves
    no advisory and is the registration without a bouncetime. *)
Lemma negative_bouncetime_is_accepted :
  fst (add_event_detect (Number 12) RISING (Some 1%nat) (Some (-200)) input_12)
    = inr tt /\
  fst (add_event_callback (Number 12) (Some 1%nat) (Some (-200)) input_12)
    = inr tt /\
  add_event_detect (Number 12) RISING (Some 1%nat) (Some (-200)) input_12_quiet
    = add_event_detect (Number 12) RISING (Some 1%nat) None input_12_quiet /\
  ~ In (Warn BouncetimeUnsupported)
       (log (snd (add_event_detect (Number 12) RISING (Some 1%nat) (Some (-200))
                    input_12_quiet))).
Proof.
  split; [reflexivity|]. split; [reflexivity|]. split; [reflexivity|].
  intros H. vm_compute in H.
  repeat (destruct H as [H|H]; [discriminate H|]). exact H.
Qed.

End Runs.

(** ** Further runs on the playback board *)

Section Runs2.

#[local] Existing Instance playback.
#[local] Existing Instance playback_readings.

Ltac differ := let H := fresh in intros H; vm_compute in H; discriminate H.

(** X1: [output(12, True)] on the input 12. *)
Lemma output_refused_witness :
  output (Chan (Number 12)) true input_12
    = (inl (RuntimeError (ConfiguredFor (Number 12) IN)), input_12).
Proof.
  apply (@output_refused playback (Number 12) true input_12). differ.
Defined.

(** X2: [setup(12, GPIO.OUT, pull_up_down=GPIO.PUD_UP)] on the input 12. *)
Lemma setup_refuses_configured_witness :
  setup (Chan (Number 12)) OUT None (Some PUD_UP) input_12
    = (inl (RuntimeError (AlreadyConfigured (Number 12))),
       logged (Warn PullUpDownUnsupported) [] input_12) /\
  setup (Chan (Number 12)) OUT None None input_12
    = (inl (RuntimeError (AlreadyConfigured (Number 12))), input_12).
Proof.
  split.
  - apply (@setup_refuses_configured playback (Number 12) IN OUT None
             (Some PUD_UP) input_12).
    + differ.
    + reflexivity.
  - apply (@setup_refuses_configured playback (Number 12) IN OUT None
             None input_12).
    + differ.
    + reflexivity.
Defined.

(** X3: the export of pin 5 fails with errno 13. *)
Lemma setup_export_failure_witness :
  setup (Chan (Number 5)) IN None None (board_mode [Some (Errno 13)])
    = (inl (OSError 13),
       logged (Call (sysfs_export 5)) [] (board_mode [Some (Errno 13)])).
Proof.
  apply (@setup_export_failure playback (Number 5) IN None
           (board_mode [Some (Errno 13)]) 5 (Errno 13) []);
    first [reflexivity | differ | discriminate].
Defined.

(** X4: the export of pin 5 is busy. *)
Lemma setup_busy_goes_on_witness :
  exists w',
    setup (Chan (Number 5)) IN None None (board_mode [Some (Errno 16)])
      = (inr tt, w') /\
    exports w' = [(Number 5, IN)] /\
    log w' = [Call (sysfs_export 5); Warn (ChannelInUse (Number 5));
              Call (sysfs_unexport 5); Call (sysfs_export 5);
              Call (sysfs_direction 5 IN)].
Proof.
  apply (@setup_busy_goes_on playback (Number 5) IN
           (board_mode [Some (Errno 16)]) 5 [] [] [] []);
    first [reflexivity | differ].
Defined.

(** X5: the write of the initial value of pin 5 fails. *)
Lemma setup_initial_write_failure_witness :
  exists w',
    setup (Chan (Number 5)) OUT (Some true) None
          (board_mode [None; None; Some (Errno 5)])
      = (inl (OSError 5), w') /\
    Dict.get (Number 5) (exports w') = Some OUT /\
    forall dir initial,
      setup (Chan (Number 5)) dir initial None w'
        = (inl (RuntimeError (AlreadyConfigured (Number 5))), w').
Proof.
  apply (@setup_initial_write_failure playback (Number 5) true
           (board_mode [None; None; Some (Errno 5)]) 5 [None; Some (Errno 5)]
           [Some (Errno 5)] (Errno 5) []);
    first [reflexivity | differ].
Defined.

(** X7: [setup(5, GPIO.IN, pull_up_down=GPIO.PUD_UP)]. *)
Lemma setup_pull_is_only_an_advisory_witness :
  setup (Chan (Number 5)) IN None (Some PUD_UP) (board_mode [])
    = setup (Chan (Number 5)) IN None None (pull_advised (board_mode [])).
Proof.
  apply (@setup_pull_is_only_an_advisory playback). differ.
Defined.

(** X9: [cleanup()] when [event.cleanup] of pin 12 is refused. *)
Lemma cleanup_all_failure_keeps_settings_witness :
  fst (cleanup None input_12_then_refusal) = inl (OSError 5) /\
  gpio_mode (snd (cleanup None input_12_then_refusal)) = Some BOARD.
Proof.
  split; [reflexivity|].
  destruct (@cleanup_all_failure_keeps_settings playback
              input_12_then_refusal (OSError 5)
              (snd (cleanup None input_12_then_refusal)) eq_refl)
    as ((M & _) & _).
  exact M.
Defined.

(** X10: [cleanup()] with 12 and then 7 in the ledger. *)
Lemma cleanup_all_releases_in_order_witness :
  exists ps,
    Forall2 (fun c p => get_gpio_pin (gpio_mode input_12_output_7) c = inr p)
            [Number 12; Number 7] ps /\
    log (snd (cleanup None input_12_output_7)) =
      log input_12_output_7 ++
      flat_map (fun p => [Call (event_cleanup p); Call (sysfs_unexport p)]) ps.
Proof.
  apply (@cleanup_all_releases_in_order playback input_12_output_7
           (snd (cleanup None input_12_output_7))).
  reflexivity.
Defined.

(** X11: [setup(7, GPIO.OUT)] and [cleanup(7)] after [setup(12, GPIO.IN)]. *)
Lemma setup_then_cleanup_restores_witness :
  exports (snd (cleanup (Some (Chan (Number 7))) input_12_output_7))
    = exports input_12.
Proof.
  apply (@setup_then_cleanup_restores playback (Number 7) OUT None None
           input_12 input_12_output_7); reflexivity.
Defined.

(** X12: edge detection on the output 7. *)
Lemma edge_registration_refused_witness :
  add_event_detect (Number 7) RISING None (Some 200) input_12_output_7
    = (inl (RuntimeError (ConfiguredFor (Number 7) OUT)), input_12_output_7).
Proof.
  apply (proj1 (@edge_registration_refused playback (Number 7)
                  input_12_output_7 eq_refl)).
Defined.

(** X13: [pwm_polarity()] twice. *)
Lemma pwm_polarity_does_not_toggle_witness :
  log (snd (snd (Py.bind PWM.pwm_polarity (fun _ => PWM.pwm_polarity)
                   (pwm_1000_50, fresh [])))) =
  [Call (PWM_Disable 0 0); Call (PWM_Polarity 0 0 true);
   Call (PWM_Enable 0 0);
   Call (PWM_Disable 0 0); Call (PWM_Polarity 0 0 true);
   Call (PWM_Enable 0 0)].
Proof.
  apply (@pwm_polarity_does_not_toggle playback pwm_1000_50 (fresh [])).
  reflexivity.
Defined.

(** X15: 1000 Hz, then 500 Hz, 2000 Hz and 1000 Hz, at 50 %. *)
Lemma change_frequency_sequence_safe_witness :
  exists evs,
    log (snd (snd (Py.for_each PWM.change_frequency
                     [(Integer 500); (Integer 2000); (Integer 1000)] (pwm_1000_50, fresh []))))
      = [] ++ evs /\
    writes_admissible evs (Attr.mk 1000000 0).
Proof.
  apply (@change_frequency_sequence_safe playback [(Integer 500); (Integer 2000); (Integer 1000)]
           pwm_1000_50 (fresh []) (Attr.mk 1000000 0) 1000000).
  - repeat constructor.
    + exists 2000000, 1000000. repeat split; [discriminate].
    + exists 500000, 250000. repeat split; [discriminate].
    + exists 1000000, 500000. repeat split; [discriminate].
  - reflexivity.
  - reflexivity.
  - unfold Attr.admissible. cbn. lia.
Defined.

(** X16: [change_frequency(0)]. *)
Lemma change_frequency_zero_witness :
  PWM.change_frequency (Integer 0) (pwm_1000_50, fresh [])
    = (inl ZeroDivisionError, (pwm_1000_50, fresh [])).
Proof.
  apply (@change_frequency_zero playback). reflexivity.
Defined.

(** X17: the export of the PWM channel fails with errno 13. *)
Lemma init_export_failure_witness :
  PWM.__init__ 0 0 (Integer 1000) (Integer 50) false (fresh [Some (Errno 13)])
    = (inl (OSError 13),
       logged (Call (PWM_Export 0 0)) [] (fresh [Some (Errno 13)])).
Proof.
  apply (@init_export_failure playback 0 0 (Integer 1000) (Integer 50) false
           (fresh [Some (Errno 13)]) (Errno 13) []);
    [reflexivity|discriminate].
Defined.

(** X18: errno 16 from the enable call. *)
Lemma init_busy_at_enable_witness :
  exists w',
    PWM.__init__ 0 0 (Integer 1000) (Integer 50) false (fresh [None; None; Some (Errno 16)])
      = (inr pwm_1000_50, w') /\
    device w' = [] /\
    log w' = [Call (PWM_Export 0 0); Call (PWM_Polarity 0 0 false);
              Call (PWM_Enable 0 0); Warn (PwmPinInUse 0);
              Call (PWM_Unexport 0 0); Call (PWM_Export 0 0)].
Proof.
  apply (@init_busy_at_enable playback 0 0 (Integer 1000) (Integer 50) false
           (fresh [None; None; Some (Errno 16)])
           [None; Some (Errno 16)] [Some (Errno 16)] [] [] []);
    reflexivity.
Defined.

(** X19: [input(7)] on the output 7. *)
Lemma input_reads_either_direction_witness :
  input (Number 7) input_12_output_7 = ask (sysfs_input 7) input_12_output_7.
Proof.
  apply (proj1 (proj2 (@input_reads_either_direction playback
                         playback_readings (Number 7) input_12_output_7))
           OUT 7); reflexivity.
Defined.

(** X20: [wait_for_edge(12, GPIO.RISING, timeout=1000)] sees an edge. *)
Lemma wait_for_edge_gives_channel_witness :
  wait_for_edge (Number 12) RISING 1000 input_12
    = (inr (Some (Number 12)), input_12) /\
  is_input (Number 12) input_12 = true.
Proof.
  split; [reflexivity|].
  apply (@wait_for_edge_gives_channel playback playback_readings
           (Number 12) RISING 1000 input_12 (Some (Number 12)) input_12).
  reflexivity.
Defined.

(** X21: [wait_for_edge] on the output 7. *)
Lemma edge_readings_refused_witness :
  wait_for_edge (Number 7) RISING 0 input_12_output_7
    = (inl (RuntimeError (ConfiguredFor (Number 7) OUT)), input_12_output_7).
Proof.
  apply (proj1 (@edge_readings_refused playback playback_readings (Number 7)
                  input_12_output_7 eq_refl)).
Defined.

End Runs2.
